(** * Flamethrower router: a shallow embedding of [src/lib/router.ts]

    The [Router] class is embedded as functions in a small state-and-exception
    monad over a [World]: the router's own fields, the part of the browser the
    router reads and writes, the registered listeners and the chronological
    trace of observable effects (console output, dispatched events, history
    pushes, network requests, DOM mutations).

    [reconstructDOM] is an [async] function with two [await]s.  It is embedded
    as three segments, each run to its next suspension point; a [System] holds
    the cycles that are suspended, and a step function delivers browser
    events and promise settlements in any order, so overlapping cycles
    interleave as they do in the event loop. *)

From Stdlib Require Import Ascii String List Bool Arith Lia.
Import ListNotations.
Open Scope string_scope.
Open Scope list_scope.

(** ** JavaScript primitives used by the router *)

Module Js.

(** [v.includes(sub)] on strings: [sub] occurs somewhere in [v]. *)
Fixpoint includes (v sub : string) : bool :=
  String.prefix sub v ||
  match v with
  | EmptyString => false
  | String _ v' => includes v' sub
  end.

(** [a || b] on strings: the empty string is the only falsy string. *)
Definition or (a b : string) : string :=
  match a with
  | EmptyString => b
  | _ => a
  end.

(** [arr.includes(x)] on an array of strings. *)
Definition array_includes (arr : list string) (x : string) : bool :=
  existsb (String.eqb x) arr.

(** [Set<string>]: the elements in insertion order. *)
Definition StrSet := list string.

Definition set_empty : StrSet := [].

Definition set_has (s : StrSet) (v : string) : bool :=
  existsb (String.eqb v) s.

(** [s.add(v)] leaves the set alone when [v] is already a member. *)
Definition set_add (s : StrSet) (v : string) : StrSet :=
  if set_has s v then s else s ++ [v].

End Js.

(** ** Data model *)

(** [FlamethrowerOptions]: every field is optional. *)
Record FlamethrowerOptions := {
  fo_log : option bool;
  fo_prefetch : option bool;
  fo_pageTransitions : option bool
}.

(** [this.opts] once the defaults are merged in. *)
Record Opts := {
  opt_log : bool;
  opt_prefetch : bool;
  opt_pageTransitions : bool
}.

Definition defaultOpts : Opts :=
  {| opt_log := false; opt_prefetch := true; opt_pageTransitions := false |}.

(** [{ ...defaultOpts, ...opts }]: a field of [opts] that is present wins. *)
Definition mergeOpts (opts : option FlamethrowerOptions) : Opts :=
  match opts with
  | None => defaultOpts
  | Some o =>
      {| opt_log := match fo_log o with Some b => b | None => opt_log defaultOpts end;
         opt_prefetch :=
           match fo_prefetch o with Some b => b | None => opt_prefetch defaultOpts end;
         opt_pageTransitions :=
           match fo_pageTransitions o with
           | Some b => b
           | None => opt_pageTransitions defaultOpts
           end |}
  end.

(** [RouteChangeData] *)
Record RouteChangeData := {
  rc_type : string;
  rc_next : string;
  rc_prev : string
}.

(** A thrown value.  [err_detail] is the thrown object's own [detail]
    property, which the errors thrown by the platform do not have. *)
Record JsError := {
  err_name : string;
  err_message : string;
  err_detail : option string
}.

(** [new CustomEvent(type, init)]: the event's [detail] is [init.detail]. *)
Record CustomEvent := {
  ev_type : string;
  ev_detail : option string
}.

(** The markup of a page, already structured: the tags of its head, and of
    its body the [href] of every hyperlink and the source of every script,
    in document order. *)
Record Markup := {
  mk_head : list string;
  mk_links : list string;
  mk_scripts : list string
}.

(** A child of [document.head]: a tag of the page, or a
    [<link rel="prefetch" href=url>] element made by the router. *)
Inductive HeadNode :=
| HeadTag (markup : string)
| PrefetchLink (url : string).

(** What [fetch(next)] settles to: it rejects on a network failure, and
    resolves to a response, whatever its status, otherwise. *)
Record Response := {
  res_status : nat
}.

Inductive FetchOutcome :=
| FetchRejects (err : JsError)
| FetchResolves (res : Response).

(** What [res.text()] settles to. *)
Inductive TextOutcome :=
| TextRejects (err : JsError)
| TextResolves (html : Markup).

(** Observable effects, in the order they happen. *)
Inductive Effect :=
| ConsoleLog (args : list string)
| ConsoleWarn (msg : string)
| ConsoleError (msg : string) (err : JsError)
| ConsoleTime (label : string)
| ConsoleTimeEnd (label : string)
| AddEventListener (target event : string)
| DispatchEvent (ev : CustomEvent)
| HistoryPush (url : string)
| HistoryBack
| HistoryForward
| FetchStart (url : string)
| ParseDocument
| MergeHead
| TransitionStart
| ReplaceBody
| ExecScript (src : string)
| ScrollToTop
| AppendHead (n : HeadNode).

(** The global [window] of the environment: not declared at all (a
    reference to it raises a [ReferenceError]), or an object, with or
    without a [history]. *)
Inductive Window :=
| Undeclared
| Declared (history_object : bool).

(** The browser as the router sees it. *)
Record Host := {
  window : Window;               (* the global window *)
  origin : string;               (* location.origin *)
  href : string;                 (* location.href *)
  history : list string;         (* entries pushed so far, oldest first *)
  head : list HeadNode;          (* children of document.head *)
  links : list string;           (* document.links, as their href *)
  scripts : list string;         (* script elements of document.body *)
  has_transitions : bool;        (* document.createDocumentTransition is truthy *)
  scrollY : nat
}.

(** [window?.history] is truthy.  Only the constructor meets a host whose
    [window] is undeclared: it throws there and no router comes to exist, so
    the methods are modelled for hosts that have a [window]. *)
Definition has_history (h : Host) : bool :=
  match window h with
  | Declared b => b
  | Undeclared => false
  end.

(** The fields of the [Router] instance. *)
Record Router := {
  enabled : bool;
  prefetched : Js.StrSet;
  opts : Opts
}.

Record World := {
  router : Router;
  host : Host;
  listeners : list (string * string);
  trace : list Effect
}.

Definition set_router (f : Router -> Router) (w : World) : World :=
  {| router := f (router w); host := host w;
     listeners := listeners w; trace := trace w |}.

Definition set_host (f : Host -> Host) (w : World) : World :=
  {| router := router w; host := f (host w);
     listeners := listeners w; trace := trace w |}.

(** ** The monad: state, and exceptions that a [try] can catch *)

Inductive Result (A : Type) :=
| Ok (a : A)
| Throw (e : JsError).
Arguments Ok {A} a.
Arguments Throw {A} e.

Definition M (A : Type) : Type := World -> Result A * World.

Definition ret {A} (a : A) : M A := fun w => (Ok a, w).

Definition bind {A B} (m : M A) (f : A -> M B) : M B :=
  fun w =>
    match m w with
    | (Ok a, w') => f a w'
    | (Throw e, w') => (Throw e, w')
    end.

Definition throw {A} (e : JsError) : M A := fun w => (Throw e, w).

Definition try_catch {A} (body : M A) (handler : JsError -> M A) : M A :=
  fun w =>
    match body w with
    | (Ok a, w') => (Ok a, w')
    | (Throw e, w') => handler e w'
    end.

Definition get : M World := fun w => (Ok w, w).

Definition modify (f : World -> World) : M unit := fun w => (Ok tt, f w).

Declare Scope js_scope.
Delimit Scope js_scope with js.
Notation "x <- m ;; k" := (bind m (fun x => k))
  (at level 61, m at next level, right associativity) : js_scope.
Notation "m ;; k" := (bind m (fun _ => k))
  (at level 61, right associativity) : js_scope.
Open Scope js_scope.

(** [cond && stmt] used as a statement. *)
Definition when (c : bool) (m : M unit) : M unit :=
  if c then m else ret tt.

(** [arr.forEach(f)] *)
Fixpoint forEach {A} (arr : list A) (f : A -> M unit) : M unit :=
  match arr with
  | [] => ret tt
  | x :: rest => f x ;; forEach rest f
  end.

Definition emit (e : Effect) : M unit :=
  modify (fun w =>
    {| router := router w; host := host w;
       listeners := listeners w; trace := trace w ++ [e] |}).


Definition getOpts : M Opts := fun w => (Ok (opts (router w)), w).

Definition TypeError (msg : string) : JsError :=
  {| err_name := "TypeError"; err_message := msg; err_detail := None |}.

Definition ReferenceError (msg : string) : JsError :=
  {| err_name := "ReferenceError"; err_message := msg; err_detail := None |}.

(** [window.dispatchEvent(ev)] *)
Definition dispatchEvent (ev : CustomEvent) : M unit := emit (DispatchEvent ev).

(** [target.addEventListener(event, callback)] *)
Definition addEventListener (target event : string) : M unit :=
  modify (fun w =>
    {| router := router w; host := host w;
       listeners := listeners w ++ [(target, event)]; trace := trace w |}) ;;
  emit (AddEventListener target event).

(** ** The collaborators imported from [./handlers] and [./dom] *)

Module Handlers.

(** Modelled from the spec: [addToPushState] of [./handlers], which is not
    among the sources.  It pushes [url] onto the host's navigable-history
    stack, and the address bar changes with it.  A host without a history
    object has no stack to push to: the call raises the [TypeError] of a
    method call on [undefined]. *)
Definition addToPushState (url : string) : M unit :=
  w <- get ;;
  if has_history (host w) then
    modify (set_host (fun h =>
      {| window := window h; origin := origin h; href := url;
         history := history h ++ [url]; head := head h; links := links h;
         scripts := scripts h; has_transitions := has_transitions h;
         scrollY := scrollY h |})) ;;
    emit (HistoryPush url)
  else
    throw (TypeError "window.history is undefined").

(** Modelled from the spec: [scrollToTop] of [./handlers], which is not
    among the sources.  For the link and programmatic kinds the scroll
    position resets to the top of the document; for the pop kind it is left
    to the browser. *)
Definition scrollToTop (type : string) : M unit :=
  if Js.array_includes ["link"; "go"] type then
    modify (set_host (fun h =>
      {| window := window h; origin := origin h; href := href h;
         history := history h; head := head h; links := links h;
         scripts := scripts h; has_transitions := has_transitions h;
         scrollY := 0 |})) ;;
    emit ScrollToTop
  else ret tt.

End Handlers.

Module Dom.

(** Modelled from the spec: [formatNextDocument] of [./dom], which is not
    among the sources.  It parses the response text into a document that
    exposes a head subtree and a body subtree. *)
Definition formatNextDocument (html : Markup) : M Markup :=
  emit ParseDocument ;; ret html.

Definition head_node_eqb (a b : HeadNode) : bool :=
  match a, b with
  | HeadTag x, HeadTag y => String.eqb x y
  | PrefetchLink x, PrefetchLink y => String.eqb x y
  | _, _ => false
  end.

(** What reconciling the live head with the tags of the next head leaves:
    a live node that the next head has too stays in place, the other live
    nodes go, and the tags only the next head has are added. *)
Definition reconcile (next live : list HeadNode) : list HeadNode :=
  let kept := filter (fun n => existsb (head_node_eqb n) next) live in
  let added := filter (fun n => negb (existsb (head_node_eqb n) kept)) next in
  kept ++ added.

(** Modelled from the spec: [mergeHead] of [./dom], which is not among the
    sources.  It reconciles tags instead of replacing the head. *)
Definition mergeHead (nextDoc : Markup) : M unit :=
  modify (set_host (fun h =>
    {| window := window h; origin := origin h; href := href h;
       history := history h;
       head := reconcile (map HeadTag (mk_head nextDoc)) (head h);
       links := links h;
       scripts := scripts h; has_transitions := has_transitions h;
       scrollY := scrollY h |})) ;;
  emit MergeHead.

(** Modelled from the spec: [replaceBody] of [./dom], which is not among
    the sources.  The body subtree of the next document replaces the live
    body wholesale. *)
Definition replaceBody (nextDoc : Markup) : M unit :=
  modify (set_host (fun h =>
    {| window := window h; origin := origin h; href := href h;
       history := history h; head := head h; links := mk_links nextDoc;
       scripts := mk_scripts nextDoc; has_transitions := has_transitions h;
       scrollY := scrollY h |})) ;;
  emit ReplaceBody.

(** Modelled from the spec: [runScripts] of [./dom], which is not among the
    sources.  Every script element of the live body is executed again. *)
Definition runScripts : M unit :=
  w <- get ;;
  forEach (scripts (host w)) (fun src => emit (ExecScript src)).

(** Modelled from the spec: [createDocumentTransition().start(callback)] of
    the host, an opaque wrapper around the merge step: the callback runs,
    once, inside the transition.  The model runs it at once; the source
    does not wait for [start], so a statement about what follows the merge
    in a cycle is made for the branch without transition only. *)
Definition transition_start (callback : M unit) : M unit :=
  emit TransitionStart ;; callback.

End Dom.

(** ** The [Router] class *)

Module Router.

Import Handlers Dom.

(** [private log(...args)]: straight to [console.log], whatever
    [opts.log] says. *)
Definition log (args : list string) : M unit := emit (ConsoleLog args).

Definition unsupported : string :=
  "flamethrower router not supported in this browser or environment".

(** The filter of [prefetch], on the [href] of a link. *)
Definition keep (w : World) (v : string) : bool :=
  Js.includes v (origin (host w)) &&
  negb (Js.includes v "#") &&
  negb (String.eqb v (Js.or (href (host w)) (href (host w) ++ "/"))) &&
  negb (Js.set_has (prefetched (router w)) v).

Definition track (url : string) : M unit :=
  modify (set_router (fun r =>
    {| enabled := enabled r; prefetched := Js.set_add (prefetched r) url;
       opts := opts r |})).

(** [document.head.appendChild(el)] *)
Definition appendToHead (el : HeadNode) : M unit :=
  modify (set_host (fun h =>
    {| window := window h; origin := origin h; href := href h;
       history := history h; head := head h ++ [el]; links := links h;
       scripts := scripts h; has_transitions := has_transitions h;
       scrollY := scrollY h |})) ;;
  emit (AppendHead el).

(** [private prefetch()] *)
Definition prefetch : M unit :=
  o <- getOpts ;;
  if opt_prefetch o then
    w <- get ;;
    let allLinks := filter (keep w) (links (host w)) in
    forEach allLinks (fun url =>
      appendToHead (PrefetchLink url) ;;
      track url)
  else ret tt.

(** [constructor(opts)], after the field initialisers.  [window?.history]
    guards against a [window] that is [null] or [undefined], not against one
    that is not declared: there the reference itself throws, before any
    warning. *)
Definition new (o : option FlamethrowerOptions) : M unit :=
  modify (set_router (fun _ =>
    {| enabled := true; prefetched := Js.set_empty; opts := mergeOpts o |})) ;;
  w <- get ;;
  match window (host w) with
  | Undeclared => throw (ReferenceError "window is not defined")
  | Declared true =>
      addEventListener "document" "click" ;;
      addEventListener "window" "popstate" ;;
      prefetch
  | Declared false =>
      emit (ConsoleWarn unsupported) ;;
      prefetch
  end.

(** Where an [async] call stands when it gives control back. *)
Inductive JsValue := Undefined | False.

Inductive Pending :=
| AwaitFetch (type next : string)
| AwaitText (type next : string).

Inductive Completion :=
| Return (v : JsValue)
| Await (p : Pending).

(** The [catch] block of [reconstructDOM].  The thrown value is handed to
    [CustomEvent] as its init dictionary. *)
Definition on_error (err : JsError) : M Completion :=
  dispatchEvent {| ev_type := "router:error"; ev_detail := err_detail err |} ;;
  o <- getOpts ;;
  when (opt_log o) (emit (ConsoleTimeEnd "⏱️")) ;;
  emit (ConsoleError "💥 router fetch failed" err) ;;
  ret (Return False).

Definition eligible (d : RouteChangeData) : bool :=
  Js.array_includes ["popstate"; "link"; "go"] (rc_type d) &&
  negb (String.eqb (rc_next d) (rc_prev d)).

(** [private async reconstructDOM({ type, next, prev })], up to
    [await fetch(next)]. *)
Definition reconstructDOM (d : RouteChangeData) : M Completion :=
  w <- get ;;
  if negb (enabled (router w)) then
    log ["router disabled"] ;;
    ret (Return Undefined)
  else
    try_catch
      (log ["⚡"; rc_type d] ;;
       if eligible d then
         o <- getOpts ;;
         when (opt_log o) (emit (ConsoleTime "⏱️")) ;;
         dispatchEvent {| ev_type := "router:fetch"; ev_detail := None |} ;;
         addToPushState (rc_next d) ;;
         emit (FetchStart (rc_next d)) ;;
         ret (Await (AwaitFetch (rc_type d) (rc_next d)))
       else ret (Return Undefined))
      on_error.

(** [reconstructDOM] from the settlement of [fetch(next)] up to
    [await res.text()]. *)
Definition reconstructDOM_fetched (type next : string) (o : FetchOutcome)
  : M Completion :=
  try_catch
    (match o with
     | FetchRejects err => throw err
     | FetchResolves _ => ret (Await (AwaitText type next))
     end)
    on_error.

(** [reconstructDOM] from the settlement of [res.text()] to the end. *)
Definition reconstructDOM_text (type : string) (o : TextOutcome)
  : M Completion :=
  try_catch
    (match o with
     | TextRejects err => throw err
     | TextResolves html =>
         nextDoc <- formatNextDocument html ;;
         mergeHead nextDoc ;;
         w <- get ;;
         (if opt_pageTransitions (opts (router w)) &&
             has_transitions (host w)
          then transition_start (replaceBody nextDoc ;; runScripts)
          else replaceBody nextDoc ;; runScripts) ;;
         scrollToTop type ;;
         dispatchEvent {| ev_type := "router:end"; ev_detail := None |} ;;
         prefetch ;;
         o <- getOpts ;;
         when (opt_log o) (emit (ConsoleTimeEnd "⏱️")) ;;
         ret (Return Undefined)
     end)
    on_error.

(** [back()] and [forward()] *)
Definition back : M unit :=
  w <- get ;;
  if has_history (host w) then emit HistoryBack
  else throw (TypeError "window.history is undefined").

Definition forward : M unit :=
  w <- get ;;
  if has_history (host w) then emit HistoryForward
  else throw (TypeError "window.history is undefined").

(** [onClick(e)] and [onPop(e)]: the decoders of [./handlers] turn the
    event into the [RouteChangeData] given here. *)
Definition onClick (d : RouteChangeData) : M Completion := reconstructDOM d.
Definition onPop (d : RouteChangeData) : M Completion := reconstructDOM d.

Section Go.

(** [new URL(path, base).href], the URL parser of the platform: [None] when
    [path] does not parse against [base], where [new URL] throws a
    [TypeError]. *)
Variable URL_href : string -> string -> option string.

(** [go(path)].  A path that does not parse throws out of [go] itself,
    before [reconstructDOM] is called and outside its [try]. *)
Definition go (path : string) : M Completion :=
  w <- get ;;
  let prev := href (host w) in
  match URL_href path (origin (host w)) with
  | None => throw (TypeError "Invalid URL")
  | Some next =>
      reconstructDOM {| rc_type := "go"; rc_next := next; rc_prev := prev |}
  end.

End Go.

End Router.

(** ** The router in the event loop *)

Module EventLoop.

Import Router.

(** The world, and the [reconstructDOM] calls suspended at an [await]. *)
Record System := {
  world : World;
  pending : list Pending
}.

(** What the host can deliver to the router. *)
Inductive Input :=
| Click (d : RouteChangeData)            (* a click reaches the click listener *)
| PopState (url : string) (d : RouteChangeData)
                                         (* the browser moved to [url] in its
                                            history and fires popstate *)
| CallGo (path : string)
| CallBack
| CallForward
| SetEnabled (b : bool)                  (* router.enabled = b *)
| FetchSettles (i : nat) (o : FetchOutcome)
| TextSettles (i : nat) (o : TextOutcome)
| LinkLoad (url : string)                (* onload of a prefetch link *)
| LinkError (url : string) (err : JsError).

Fixpoint remove_nth {A} (i : nat) (l : list A) : list A :=
  match i, l with
  | _, [] => []
  | 0, _ :: rest => rest
  | S j, x :: rest => x :: remove_nth j rest
  end.

(** Run a segment of a cycle; a cycle that reaches an [await] joins the
    suspended ones. *)
Definition settle (m : M Completion) (w : World) (rest : list Pending)
  : System :=
  match m w with
  | (Ok (Await p), w') => {| world := w'; pending := rest ++ [p] |}
  | (_, w') => {| world := w'; pending := rest |}
  end.

Definition has_listener (w : World) (target event : string) : bool :=
  existsb (fun l => String.eqb (fst l) target && String.eqb (snd l) event)
          (listeners w).

Definition head_node_is (url : string) (e : Effect) : bool :=
  match e with
  | AppendHead (PrefetchLink u) => String.eqb u url
  | _ => false
  end.

Definition moved_to (url : string) (w : World) : World :=
  set_host (fun h =>
    {| window := window h; origin := origin h; href := url;
       history := history h; head := head h; links := links h;
       scripts := scripts h; has_transitions := has_transitions h;
       scrollY := scrollY h |}) w.

Section Step.

Variable URL_href : string -> string -> option string.

(** One turn of the event loop; [None] when the host cannot deliver the
    input in this state. *)
Definition step (i : Input) (s : System) : option System :=
  let w := world s in
  match i with
  | Click d =>
      if has_listener w "document" "click"
      then Some (settle (onClick d) w (pending s))
      else None
  | PopState url d =>
      if has_listener w "window" "popstate"
      then Some (settle (onPop d) (moved_to url w) (pending s))
      else None
  | CallGo path => Some (settle (go URL_href path) w (pending s))
  | CallBack =>
      Some {| world := snd (back w); pending := pending s |}
  | CallForward =>
      Some {| world := snd (forward w); pending := pending s |}
  | SetEnabled b =>
      Some {| world := set_router (fun r =>
                {| enabled := b; prefetched := prefetched r;
                   opts := opts r |}) w;
              pending := pending s |}
  | FetchSettles n o =>
      match nth_error (pending s) n with
      | Some (AwaitFetch type next) =>
          Some (settle (reconstructDOM_fetched type next o) w
                       (remove_nth n (pending s)))
      | _ => None
      end
  | TextSettles n o =>
      match nth_error (pending s) n with
      | Some (AwaitText type _) =>
          Some (settle (reconstructDOM_text type o) w
                       (remove_nth n (pending s)))
      | _ => None
      end
  | LinkLoad url =>
      if existsb (head_node_is url) (trace w)
      then Some {| world := snd (log ["🌩️ prefetched"; url] w);
                   pending := pending s |}
      else None
  | LinkError url err =>
      if existsb (head_node_is url) (trace w)
      then Some {| world := snd (log ["🤕 can't prefetch"; url;
                                      err_message err] w);
                   pending := pending s |}
      else None
  end.

(** The page before the script runs: nothing listens, nothing happened. *)
Definition fresh (h : Host) : World :=
  {| router := {| enabled := true; prefetched := Js.set_empty;
                  opts := defaultOpts |};
     host := h; listeners := []; trace := [] |}.

(** [new Router(opts)] on a page.  Where the constructor throws, no router
    comes to exist; the world is then the one the constructor left, and the
    states reached from it over-approximate what the host can observe. *)
Definition boot (h : Host) (o : option FlamethrowerOptions) : System :=
  {| world := snd (new o (fresh h)); pending := [] |}.

Inductive reachable (h : Host) (o : option FlamethrowerOptions)
  : System -> Prop :=
| reach_boot : reachable h o (boot h o)
| reach_step : forall s i s',
    reachable h o s -> step i s = Some s' -> reachable h o s'.

(** Deliver a list of inputs in order. *)
Fixpoint run (inputs : list Input) (s : System) : option System :=
  match inputs with
  | [] => Some s
  | i :: rest =>
      match step i s with
      | Some s' => run rest s'
      | None => None
      end
  end.

End Step.

End EventLoop.

(** ** Vocabulary of the statements *)

(** The effects that running [m] from [w] adds to the trace. *)
Definition emitted {A} (m : M A) (w : World) : list Effect :=
  skipn (length (trace w)) (trace (snd (m w))).

Definition is_console (e : Effect) : bool :=
  match e with
  | ConsoleLog _ | ConsoleWarn _ | ConsoleError _ _
  | ConsoleTime _ | ConsoleTimeEnd _ => true
  | _ => false
  end.

Definition is_fetch (e : Effect) : bool :=
  match e with
  | FetchStart _ => true
  | _ => false
  end.

Definition is_history (e : Effect) : bool :=
  match e with
  | HistoryPush _ | HistoryBack | HistoryForward => true
  | _ => false
  end.

Definition is_dispatch (e : Effect) : bool :=
  match e with
  | DispatchEvent _ => true
  | _ => false
  end.

Definition is_dispatch_of (type : string) (e : Effect) : bool :=
  match e with
  | DispatchEvent ev => String.eqb (ev_type ev) type
  | _ => false
  end.

Definition is_append (e : Effect) : bool :=
  match e with
  | AppendHead _ => true
  | _ => false
  end.

Definition is_exec (e : Effect) : bool :=
  match e with
  | ExecScript _ => true
  | _ => false
  end.

(** The prefetch request for [url]: the link element put into the head. *)
Definition request (url : string) : Effect := AppendHead (PrefetchLink url).

(** The URLs a prefetch pass started in [w] asks for, one per link kept. *)
Definition requested (w : World) : list string :=
  if opt_prefetch (opts (router w))
  then filter (Router.keep w) (links (host w))
  else [].

(** [w] once the pass has handled the URLs [urls]. *)
Definition after_requests (urls : list string) (w : World) : World :=
  {| router :=
       {| enabled := enabled (router w);
          prefetched := fold_left Js.set_add urls (prefetched (router w));
          opts := opts (router w) |};
     host :=
       {| window := window (host w); origin := origin (host w);
          href := href (host w); history := history (host w);
          head := head (host w) ++ map PrefetchLink urls;
          links := links (host w); scripts := scripts (host w);
          has_transitions := has_transitions (host w);
          scrollY := scrollY (host w) |};
     listeners := listeners w;
     trace := trace w ++ map request urls |}.

(** What the filter of [prefetch] compares a link with: the document's URL. *)
Definition current_page (h : Host) : string :=
  Js.or (href h) (href h ++ "/").

(** The four conditions of the prefetch pass as the specification words
    them, for the comparison with [Router.keep]. *)
Module Spec.

(** (a) the link shares the document's origin: its URL is the origin
    followed by a path. *)
Definition shares_origin (h : Host) (v : string) : bool :=
  String.prefix (origin h ++ "/") v.

(** The URL without its fragment. *)
Fixpoint without_fragment (v : string) : string :=
  match v with
  | EmptyString => EmptyString
  | String c rest =>
      if Ascii.eqb c "#"%char then EmptyString
      else String c (without_fragment rest)
  end.

(** (b) a pure same-page anchor differs from the current page by its
    fragment only. *)
Definition pure_anchor (h : Host) (v : string) : bool :=
  Js.includes v "#" &&
  String.eqb (without_fragment v) (without_fragment (href h)).

(** (a) to (d) together. *)
Definition keep (w : World) (v : string) : bool :=
  shares_origin (host w) v &&
  negb (pure_anchor (host w) v) &&
  negb (String.eqb v (href (host w))) &&
  negb (Js.set_has (prefetched (router w)) v).

End Spec.

(** ** Pages and scenarios used to try the statements *)

Module Scenario.

Import Router EventLoop.

Definition home : Host :=
  {| window := Declared true;
     origin := "https://a.example";
     href := "https://a.example/";
     history := [];
     head := [HeadTag "<title>Home</title>"];
     links := ["https://a.example/about";
               "https://a.example/docs#intro";
               "https://a.example.evil.test/";
               "https://a.example/";
               "https://a.example/about"];
     scripts := [];
     has_transitions := false;
     scrollY := 7 |}.


(** The same page where no [window] is declared. *)
Definition home_no_window : Host :=
  {| window := Undeclared;
     origin := origin home; href := href home; history := [];
     head := head home; links := links home; scripts := [];
     has_transitions := false; scrollY := 7 |}.

Definition about : Markup :=
  {| mk_head := ["<title>About</title>"];
     mk_links := ["https://a.example/"; "https://a.example/about#team"];
     mk_scripts := ["init()"; "track()"; "init()"] |}.

Definition error_page : Markup :=
  {| mk_head := ["<title>500</title>"];
     mk_links := [];
     mk_scripts := ["report()"] |}.

Definition to_about : RouteChangeData :=
  {| rc_type := "link";
     rc_next := "https://a.example/about";
     rc_prev := "https://a.example/" |}.

Definition same_page : RouteChangeData :=
  {| rc_type := "link";
     rc_next := "https://a.example/";
     rc_prev := "https://a.example/" |}.

Definition offline : JsError := TypeError "Failed to fetch".

Definition no_prefetch : option FlamethrowerOptions :=
  Some {| fo_log := Some true; fo_prefetch := Some false;
          fo_pageTransitions := None |}.

(** A resolver for paths that start with a slash; it rejects the empty
    path. *)
Definition URL_href (path base : string) : option string :=
  match path with
  | EmptyString => None
  | _ => Some (base ++ path)%string
  end.

End Scenario.

(** [w] with the effects [es] added to its trace. *)
Definition with_trace (es : list Effect) (w : World) : World :=
  {| router := router w; host := host w;
     listeners := listeners w; trace := trace w ++ es |}.

(** The timing diagnostics, which [opts.log] gates. *)
Definition time_start (o : Opts) : list Effect :=
  if opt_log o then [ConsoleTime "⏱️"] else [].

Definition time_end (o : Opts) : list Effect :=
  if opt_log o then [ConsoleTimeEnd "⏱️"] else [].

Definition fetch_event : Effect :=
  DispatchEvent {| ev_type := "router:fetch"; ev_detail := None |}.

Definition end_event : Effect :=
  DispatchEvent {| ev_type := "router:end"; ev_detail := None |}.

(** What the [catch] block of [reconstructDOM] emits for [err]. *)
Definition failure_effects (o : Opts) (err : JsError) : list Effect :=
  [DispatchEvent {| ev_type := "router:error"; ev_detail := err_detail err |}]
  ++ time_end o ++ [ConsoleError "💥 router fetch failed" err].

(** The host after [pushState(url)]. *)
Definition pushed (url : string) (w : World) : World :=
  set_host (fun h =>
    {| window := window h; origin := origin h; href := url;
       history := history h ++ [url]; head := head h; links := links h;
       scripts := scripts h; has_transitions := has_transitions h;
       scrollY := scrollY h |}) w.

(** The host once a fetched page is merged in. *)
Definition settled_host (type : string) (html : Markup) (h : Host) : Host :=
  {| window := window h; origin := origin h; href := href h;
     history := history h;
     head := Dom.reconcile (map HeadTag (mk_head html)) (head h);
     links := mk_links html;
     scripts := mk_scripts html;
     has_transitions := has_transitions h;
     scrollY := if Js.array_includes ["link"; "go"] type then 0 else scrollY h |}.

(** What the merge of a fetched page emits, up to the end notification. *)
Definition merge_effects (o : Opts) (h : Host) (type : string) (html : Markup)
  : list Effect :=
  [ParseDocument; MergeHead] ++
  (if opt_pageTransitions o && has_transitions h then [TransitionStart] else []) ++
  [ReplaceBody] ++
  map ExecScript (mk_scripts html) ++
  (if Js.array_includes ["link"; "go"] type then [ScrollToTop] else []) ++
  [end_event].

(** The world when the fetched page is merged in and the prefetch pass of
    the cycle is about to run. *)
Definition merged (type : string) (html : Markup) (w : World) : World :=
  with_trace (merge_effects (opts (router w)) (host w) type html)
             (set_host (settled_host type html) w).

(** The world once the constructor has merged the options and either
    registered its listeners or warned, and is about to prefetch (or has
    thrown, when no [window] is declared). *)
Definition installed (o : option FlamethrowerOptions) (w : World) : World :=
  let r := {| enabled := true; prefetched := Js.set_empty;
              opts := mergeOpts o |} in
  match window (host w) with
  | Undeclared =>
      {| router := r; host := host w; listeners := listeners w;
         trace := trace w |}
  | Declared true =>
      {| router := r; host := host w;
         listeners := listeners w ++ [("document", "click"); ("window", "popstate")];
         trace := trace w ++ [AddEventListener "document" "click";
                              AddEventListener "window" "popstate"] |}
  | Declared false =>
      {| router := r; host := host w; listeners := listeners w;
         trace := trace w ++ [ConsoleWarn Router.unsupported] |}
  end.

(** The URLs the prefetch pass of the constructor asks for: none when the
    constructor throws before it. *)
Definition construction_requests (o : option FlamethrowerOptions) (w : World)
  : list string :=
  match window (host w) with
  | Undeclared => []
  | Declared _ => requested (installed o w)
  end.

Definition is_replace (e : Effect) : bool :=
  match e with
  | ReplaceBody => true
  | _ => false
  end.

(** A change of the world that involves no prefetch pass: the options, the
    prefetched set and the origin are kept, and nothing is appended to the
    head. *)
Definition quiet (w w' : World) : Prop :=
  opts (router w') = opts (router w) /\
  prefetched (router w') = prefetched (router w) /\
  origin (host w') = origin (host w) /\
  exists es, trace w' = trace w ++ es /\ filter is_append es = [].

(** A change of the world that ends with a prefetch pass, started in [w1],
    and possibly a last line on the console. *)
Definition passed (w w' : World) : Prop :=
  exists w1 tail,
    quiet w w1 /\
    w' = with_trace tail (after_requests (requested w1) w1) /\
    filter is_append tail = [].

(** Three clicks' worth of inputs: the link to the about page is clicked,
    the response arrives with status 200, and so does its text. *)
Definition visit_about : list EventLoop.Input :=
  [EventLoop.Click Scenario.to_about;
   EventLoop.FetchSettles 0 (FetchResolves {| res_status := 200 |});
   EventLoop.TextSettles 0 (TextResolves Scenario.about)].

(** The state of the home page's router once the about page is shown. *)
Definition on_about (o : option FlamethrowerOptions) : EventLoop.System :=
  match EventLoop.run Scenario.URL_href visit_about
          (EventLoop.boot Scenario.home o) with
  | Some s => s
  | None => EventLoop.boot Scenario.home o
  end.

(** The shape of the prefetched set: no URL twice, and every URL passed the
    origin test and the anchor test of the filter. *)
Definition prefetched_ok (og : string) (w : World) : Prop :=
  origin (host w) = og /\
  NoDup (prefetched (router w)) /\
  forall v, In v (prefetched (router w)) ->
            Js.includes v og = true /\ Js.includes v "#" = false.

(** A router whose prefetch option is off has prefetched nothing. *)
Definition never_prefetched (o : option FlamethrowerOptions) (w : World) : Prop :=
  opts (router w) = mergeOpts o /\
  prefetched (router w) = [] /\
  filter is_append (trace w) = [].

(** The nodes that the effects [es] append to the head, in order. *)
Fixpoint appended_nodes (es : list Effect) : list HeadNode :=
  match es with
  | [] => []
  | AppendHead n :: rest => n :: appended_nodes rest
  | _ :: rest => appended_nodes rest
  end.

(** How many prefetch requests for [url] there are among the effects [es]. *)
Definition requests_for (url : string) (es : list Effect) : nat :=
  length (filter (EventLoop.head_node_is url) es).

(** A page whose links include its own URL with a trailing slash. *)
Definition about_page : Host :=
  {| window := Declared true;
     origin := "https://a.example";
     href := "https://a.example/about";
     history := [];
     head := [];
     links := ["https://a.example/about"; "https://a.example/about/"];
     scripts := [];
     has_transitions := true;
     scrollY := 0 |}.

Definition disqualified : RouteChangeData :=
  {| rc_type := "disqualified";
     rc_next := "https://a.example/about";
     rc_prev := "https://a.example/" |}.

Definition is_transition (e : Effect) : bool :=
  match e with
  | TransitionStart => true
  | _ => false
  end.

(** The home page's router with one cycle suspended at [await res.text()]:
    the link to the about page was clicked and the response has arrived. *)
Definition awaiting_text : EventLoop.System :=
  match EventLoop.run Scenario.URL_href
          [EventLoop.Click Scenario.to_about;
           EventLoop.FetchSettles 0 (FetchResolves {| res_status := 200 |})]
          (EventLoop.boot Scenario.home None) with
  | Some s => s
  | None => EventLoop.boot Scenario.home None
  end.

Definition to_docs : RouteChangeData :=
  {| rc_type := "go";
     rc_next := "https://a.example/docs";
     rc_prev := "https://a.example/" |}.

Definition docs : Markup :=
  {| mk_head := ["<title>Docs</title>"];
     mk_links := ["https://a.example/docs/api"];
     mk_scripts := [] |}.

(** How many of the effects [es] satisfy [p]. *)
Definition tally (p : Effect -> bool) (es : list Effect) : nat :=
  length (filter p es).

Definition is_time (e : Effect) : bool :=
  match e with
  | ConsoleTime _ => true
  | _ => false
  end.

Definition is_time_end (e : Effect) : bool :=
  match e with
  | ConsoleTimeEnd _ => true
  | _ => false
  end.

Definition is_push (e : Effect) : bool :=
  match e with
  | HistoryPush _ => true
  | _ => false
  end.

(** The books of the cycles over a stretch [es] of the trace, during which
    the number of suspended cycles goes from [p] to [p']: every cycle that
    announced itself has ended, failed or is suspended; every timer started
    is stopped or belongs to a suspended cycle; every request follows a
    push, and every announcement made on a host with a history ([hh]) is
    followed by a request; without [opts.log] no timer is started. *)
Definition ledger (log hh : bool) (es : list Effect) (p p' : nat) : Prop :=
  tally (is_dispatch_of "router:fetch") es + p
  = tally (is_dispatch_of "router:end") es +
    tally (is_dispatch_of "router:error") es + p' /\
  tally is_time es + (if log then p else 0)
  = tally is_time_end es + (if log then p' else 0) /\
  tally is_fetch es = tally is_push es /\
  tally is_fetch es <= tally (is_dispatch_of "router:fetch") es /\
  (hh = true -> tally is_fetch es = tally (is_dispatch_of "router:fetch") es) /\
  (log = false -> tally is_time es = 0).

(** What no step of the event loop changes. *)
Definition same_setup (w w' : World) : Prop :=
  opts (router w') = opts (router w) /\
  listeners w' = listeners w /\
  origin (host w') = origin (host w) /\
  has_history (host w') = has_history (host w) /\
  has_transitions (host w') = has_transitions (host w).

Definition is_set_enabled (i : EventLoop.Input) : bool :=
  match i with
  | EventLoop.SetEnabled _ => true
  | _ => false
  end.

(** The prefetched set is the record of the requests made. *)
Definition set_records_requests (w : World) : Prop :=
  forall v, In (request v) (trace w) <-> In v (prefetched (router w)).

(** * Properties *)

(** ** The monad's loops *)

Lemma world_eta (w : World) :
  {| router := router w; host := host w;
     listeners := listeners w; trace := trace w |} = w.
Proof. destruct w; reflexivity. Qed.

Lemma router_eta (r : Router) :
  {| enabled := enabled r; prefetched := prefetched r; opts := opts r |} = r.
Proof. destruct r; reflexivity. Qed.

Lemma host_eta (h : Host) :
  {| window := window h; origin := origin h; href := href h;
     history := history h; head := head h; links := links h;
     scripts := scripts h; has_transitions := has_transitions h;
     scrollY := scrollY h |} = h.
Proof. destruct h; reflexivity. Qed.

Lemma forEach_emit {A} (f : A -> Effect) (l : list A) (w : World) :
  forEach l (fun x => emit (f x)) w =
  (Ok tt, {| router := router w; host := host w;
             listeners := listeners w; trace := trace w ++ map f l |}).
Proof.
  revert w; induction l as [|x l IH]; intros w; simpl.
  - rewrite app_nil_r, world_eta. reflexivity.
  - unfold bind, emit, modify at 1. rewrite IH. simpl.
    rewrite <- app_assoc. reflexivity.
Qed.

Lemma after_requests_nil (w : World) : after_requests [] w = w.
Proof.
  unfold after_requests; simpl.
  rewrite !app_nil_r, router_eta, host_eta. apply world_eta.
Qed.

Lemma after_requests_cons (u : string) (urls : list string) (w : World) :
  after_requests (u :: urls) w = after_requests urls (after_requests [u] w).
Proof.
  unfold after_requests; simpl. rewrite <- !app_assoc. reflexivity.
Qed.

Lemma forEach_prefetch (urls : list string) (w : World) :
  forEach urls (fun url =>
    Router.appendToHead (PrefetchLink url) ;; Router.track url) w =
  (Ok tt, after_requests urls w).
Proof.
  revert w; induction urls as [|u urls IH]; intros w.
  - simpl. rewrite after_requests_nil. reflexivity.
  - rewrite after_requests_cons. simpl. unfold bind at 1.
    replace ((Router.appendToHead (PrefetchLink u) ;; Router.track u) w)
      with (Ok tt, after_requests [u] w) by reflexivity.
    apply IH.
Qed.

(** [prefetch] never throws, and its result is [after_requests]. *)
Lemma prefetch_run (w : World) :
  Router.prefetch w = (Ok tt, after_requests (requested w) w).
Proof.
  unfold Router.prefetch, requested, bind, getOpts.
  destruct (opt_prefetch (opts (router w))).
  - unfold get. apply forEach_prefetch.
  - unfold ret. rewrite after_requests_nil. reflexivity.
Qed.

Lemma emitted_app {A} (m : M A) (w : World) (es : list Effect) :
  trace (snd (m w)) = trace w ++ es -> emitted m w = es.
Proof.
  unfold emitted. intros ->.
  rewrite skipn_app, skipn_all, Nat.sub_diag. reflexivity.
Qed.

Lemma prefetch_emitted (w : World) :
  emitted Router.prefetch w = map request (requested w).
Proof. apply emitted_app. rewrite prefetch_run. reflexivity. Qed.

(** ** [Set] facts *)

Lemma set_has_In (s : Js.StrSet) (v : string) :
  Js.set_has s v = true <-> In v s.
Proof.
  unfold Js.set_has. rewrite existsb_exists. split.
  - intros [x [Hx He]]. apply String.eqb_eq in He. subst. exact Hx.
  - intros H. exists v. split; [exact H | apply String.eqb_refl].
Qed.

Lemma set_has_false (s : Js.StrSet) (v : string) :
  Js.set_has s v = false <-> ~ In v s.
Proof.
  rewrite <- set_has_In. destruct (Js.set_has s v); split; intros; congruence.
Qed.

Lemma set_add_In (s : Js.StrSet) (u v : string) :
  In v (Js.set_add s u) <-> In v s \/ v = u.
Proof.
  unfold Js.set_add. destruct (Js.set_has s u) eqn:E.
  - apply set_has_In in E. split; [auto | intros [H | ->]; assumption].
  - rewrite in_app_iff. simpl. intuition.
Qed.

Lemma set_add_NoDup (s : Js.StrSet) (u : string) :
  NoDup s -> NoDup (Js.set_add s u).
Proof.
  intros H. unfold Js.set_add. destruct (Js.set_has s u) eqn:E; [exact H|].
  apply set_has_false in E.
  apply NoDup_app; [exact H | constructor; [intros [] | constructor] |].
  intros x Hx [<- | []]. exact (E Hx).
Qed.

(** [add] only ever appends. *)
Lemma set_add_extends (s : Js.StrSet) (u : string) :
  exists added, Js.set_add s u = s ++ added /\
                forall v, In v added -> v = u /\ ~ In v s.
Proof.
  unfold Js.set_add. destruct (Js.set_has s u) eqn:E.
  - exists []. rewrite app_nil_r. split; [reflexivity | intros v []].
  - apply set_has_false in E. exists [u]. split; [reflexivity|].
    intros v [<- | []]. split; [reflexivity | exact E].
Qed.

Lemma fold_set_add_In (urls : list string) (s : Js.StrSet) (v : string) :
  In v (fold_left Js.set_add urls s) <-> In v s \/ In v urls.
Proof.
  revert s; induction urls as [|u urls IH]; intros s; simpl.
  - intuition.
  - rewrite IH, set_add_In. intuition.
Qed.

Lemma fold_set_add_NoDup (urls : list string) (s : Js.StrSet) :
  NoDup s -> NoDup (fold_left Js.set_add urls s).
Proof.
  revert s; induction urls as [|u urls IH]; intros s H; simpl.
  - exact H.
  - apply IH, set_add_NoDup, H.
Qed.

Lemma fold_set_add_extends (urls : list string) (s : Js.StrSet) :
  exists added, fold_left Js.set_add urls s = s ++ added /\
                forall v, In v added -> In v urls /\ ~ In v s.
Proof.
  revert s; induction urls as [|u urls IH]; intros s; simpl.
  - exists []. rewrite app_nil_r. split; [reflexivity | intros v []].
  - destruct (set_add_extends s u) as [a1 [E1 H1]].
    destruct (IH (Js.set_add s u)) as [a2 [E2 H2]].
    exists (a1 ++ a2). split.
    + rewrite E2, E1, app_assoc. reflexivity.
    + intros v Hv. apply in_app_iff in Hv. destruct Hv as [Hv | Hv].
      * destruct (H1 v Hv) as [-> Hn]. split; [left; reflexivity | exact Hn].
      * destruct (H2 v Hv) as [Hin Hn]. split; [right; exact Hin|].
        intros Hs. apply Hn. apply set_add_In. left. exact Hs.
Qed.

(** ** The prefetch pass *)

Lemma string_neqb (a b : string) : negb (String.eqb a b) = true <-> a <> b.
Proof.
  rewrite negb_true_iff. destruct (String.eqb a b) eqn:E.
  - apply String.eqb_eq in E. split; [discriminate | congruence].
  - apply String.eqb_neq in E. split; [auto | reflexivity].
Qed.

Lemma keep_iff (w : World) (v : string) :
  Router.keep w v = true <->
  Js.includes v (origin (host w)) = true /\
  Js.includes v "#" = false /\
  v <> current_page (host w) /\
  ~ In v (prefetched (router w)).
Proof.
  unfold Router.keep, current_page.
  rewrite !andb_true_iff, string_neqb, !negb_true_iff, set_has_false.
  tauto.
Qed.

Lemma requested_iff (w : World) (v : string) :
  In v (requested w) <->
  opt_prefetch (opts (router w)) = true /\
  In v (links (host w)) /\ Router.keep w v = true.
Proof.
  unfold requested. destruct (opt_prefetch (opts (router w))).
  - rewrite filter_In. tauto.
  - simpl. split; [intros [] | intros [H _]; discriminate].
Qed.

Lemma request_inj (u v : string) : request u = request v -> u = v.
Proof. unfold request. congruence. Qed.

Lemma prefix_app_l (a b v : string) :
  String.prefix (a ++ b) v = true -> String.prefix a v = true.
Proof.
  revert v; induction a as [|c a IH]; intros v H; [destruct v; reflexivity|].
  destruct v as [|d v]; simpl in *; [discriminate|].
  destruct (Ascii.ascii_dec c d); [apply IH, H | discriminate].
Qed.

(** A URL on the document's origin passes the origin test of the filter. *)
Lemma shares_origin_includes (h : Host) (v : string) :
  Spec.shares_origin h v = true -> Js.includes v (origin h) = true.
Proof.
  unfold Spec.shares_origin. intros H. apply prefix_app_l in H.
  destruct v; cbn [Js.includes]; rewrite H; reflexivity.
Qed.

(** The requests of a pass are the links the filter keeps. *)
Lemma request_emitted_iff (w : World) (v : string) :
  In (request v) (emitted Router.prefetch w) <->
  opt_prefetch (opts (router w)) = true /\
  In v (links (host w)) /\ Router.keep w v = true.
Proof.
  rewrite prefetch_emitted, <- requested_iff, in_map_iff. split.
  - intros [u [E Hu]]. apply request_inj in E. subst. exact Hu.
  - intros H. exists v. split; [reflexivity | exact H].
Qed.

(** C4, as amended.  The prefetch pass issues a request for a link that
    shares the document's origin exactly when the prefetch option is on,
    the link is in the document, its URL contains no [#] at all, differs
    from the document's URL, and is not yet in the prefetched set; and it
    issues no request, for any URL, unless all of that holds.  (Which URLs
    off the origin are requested is left out here.) *)
Theorem prefetch_requests_iff (w : World) (v : string) :
  (In (request v) (emitted Router.prefetch w) ->
   opt_prefetch (opts (router w)) = true /\
   In v (links (host w)) /\
   Js.includes v "#" = false /\
   v <> current_page (host w) /\
   ~ In v (prefetched (router w))) /\
  (Spec.shares_origin (host w) v = true ->
   (In (request v) (emitted Router.prefetch w) <->
    opt_prefetch (opts (router w)) = true /\
    In v (links (host w)) /\
    Js.includes v "#" = false /\
    v <> current_page (host w) /\
    ~ In v (prefetched (router w)))).
Proof.
  rewrite request_emitted_iff, keep_iff. split; [tauto|].
  intros Hs. apply shares_origin_includes in Hs. tauto.
Qed.

Lemma prefetch_requests_iff_witness :
  Spec.shares_origin (host (EventLoop.fresh Scenario.home))
    "https://a.example/about" = true /\
  In (request "https://a.example/about")
     (emitted Router.prefetch (EventLoop.fresh Scenario.home)).
Proof.
  split; [vm_compute; reflexivity|].
  apply (prefetch_requests_iff (EventLoop.fresh Scenario.home)
           "https://a.example/about").
  - vm_compute. reflexivity.
  - split; [reflexivity|].
    split; [simpl; tauto|].
    split; [vm_compute; reflexivity|].
    split; [vm_compute; discriminate | simpl; tauto].
Defined.

(** C4 fails as the specification words it.  On the home page a link to a
    section of another page of the site shares the origin, is no anchor of
    the current page, differs from the current URL and is not in the set,
    and yet it is not requested. *)
Lemma prefetch_rule_counterexample :
  In "https://a.example/docs#intro" (links Scenario.home) /\
  Spec.keep (EventLoop.fresh Scenario.home) "https://a.example/docs#intro" = true /\
  ~ In (request "https://a.example/docs#intro")
       (emitted Router.prefetch (EventLoop.fresh Scenario.home)).
Proof.
  split; [simpl; tauto|].
  split; [vm_compute; reflexivity|].
  intros H. apply request_emitted_iff in H.
  destruct H as (_ & _ & H). vm_compute in H. discriminate.
Qed.

Lemma set_add_count_le (s : Js.StrSet) (u v : string) :
  count_occ string_dec s v <= 1 ->
  count_occ string_dec (Js.set_add s u) v <= 1.
Proof.
  intros H. unfold Js.set_add. destruct (Js.set_has s u) eqn:E; [exact H|].
  apply set_has_false in E. rewrite count_occ_app. simpl.
  destruct (string_dec u v) as [-> | _]; [|lia].
  apply (count_occ_not_In string_dec) in E. lia.
Qed.

Lemma fold_set_add_count_le (urls : list string) (s : Js.StrSet) (v : string) :
  count_occ string_dec s v <= 1 ->
  count_occ string_dec (fold_left Js.set_add urls s) v <= 1.
Proof.
  revert s; induction urls as [|u urls IH]; intros s H; simpl.
  - exact H.
  - apply IH, set_add_count_le, H.
Qed.

(** A URL the pass adds is in the set once, however often the document
    links to it. *)
Lemma fold_set_add_once (urls : list string) (s : Js.StrSet) (v : string) :
  ~ In v s -> In v urls ->
  count_occ string_dec (fold_left Js.set_add urls s) v = 1.
Proof.
  intros Hs Hu.
  assert (Hle : count_occ string_dec (fold_left Js.set_add urls s) v <= 1).
  { apply fold_set_add_count_le.
    apply (count_occ_not_In string_dec) in Hs. lia. }
  assert (Hin : In v (fold_left Js.set_add urls s)).
  { apply fold_set_add_In. right. exact Hu. }
  apply (count_occ_In string_dec) in Hin. lia.
Qed.

(** A pass leaves nothing for the next pass over the same document. *)
Lemma requested_after_pass (w : World) :
  requested (after_requests (requested w) w) = [].
Proof.
  destruct (requested (after_requests (requested w) w)) as [|v rest] eqn:E;
    [reflexivity | exfalso].
  assert (Hv : In v (requested (after_requests (requested w) w))).
  { rewrite E. left. reflexivity. }
  apply requested_iff in Hv. destruct Hv as (Ho & Hl & Hk).
  apply keep_iff in Hk. simpl in Ho, Hl, Hk.
  destruct Hk as (Ha & Hb & Hc & Hd).
  apply Hd. apply fold_set_add_In.
  destruct (in_dec string_dec v (prefetched (router w))) as [Hin | Hout];
    [left; exact Hin | right].
  apply requested_iff. split; [exact Ho | split; [exact Hl|]].
  apply keep_iff. auto.
Qed.

(** C9, as amended.  Two passes over an unchanged document are one: the
    second pass issues no request and changes nothing.  With the prefetch
    option on, a link that shares the document's origin, contains no [#],
    differs from the document's URL and was not in the prefetched set is in
    the set exactly once afterwards. *)
Theorem prefetch_twice (w : World) :
  (opt_prefetch (opts (router w)) = true ->
   forall v, In v (links (host w)) ->
     Spec.shares_origin (host w) v = true ->
     Js.includes v "#" = false ->
     v <> current_page (host w) ->
     ~ In v (prefetched (router w)) ->
     count_occ string_dec
       (prefetched (router (snd (Router.prefetch (snd (Router.prefetch w))))))
       v = 1) /\
  emitted Router.prefetch (snd (Router.prefetch w)) = [] /\
  snd (Router.prefetch (snd (Router.prefetch w))) = snd (Router.prefetch w).
Proof.
  assert (Hsame : snd (Router.prefetch (snd (Router.prefetch w)))
                  = snd (Router.prefetch w)).
  { rewrite (prefetch_run w). simpl. rewrite prefetch_run. simpl.
    rewrite requested_after_pass. apply after_requests_nil. }
  split; [|split].
  - intros Hopt v Hl Hs Hh Hc Hp. rewrite Hsame, prefetch_run. simpl.
    apply fold_set_add_once; [exact Hp|].
    apply requested_iff. split; [exact Hopt | split; [exact Hl|]].
    apply keep_iff. apply shares_origin_includes in Hs. auto.
  - rewrite prefetch_emitted, (prefetch_run w). simpl.
    rewrite requested_after_pass. reflexivity.
  - exact Hsame.
Qed.

Lemma prefetch_twice_witness :
  opt_prefetch (opts (router (EventLoop.fresh Scenario.home))) = true /\
  In "https://a.example/about" (links (host (EventLoop.fresh Scenario.home))) /\
  Spec.shares_origin (host (EventLoop.fresh Scenario.home))
    "https://a.example/about" = true /\
  count_occ string_dec
    (prefetched (router (snd (Router.prefetch (snd (Router.prefetch
       (EventLoop.fresh Scenario.home)))))))
    "https://a.example/about" = 1.
Proof.
  split; [reflexivity|].
  split; [simpl; tauto|].
  split; [vm_compute; reflexivity|].
  apply (prefetch_twice (EventLoop.fresh Scenario.home)).
  - reflexivity.
  - simpl. tauto.
  - vm_compute. reflexivity.
  - vm_compute. reflexivity.
  - vm_compute. discriminate.
  - simpl. tauto.
Defined.

(** C9 fails as the specification words it.  The link of the home page to
    a section of another page of the site meets the four conditions of the
    specification, and two passes leave it out of the prefetched set. *)
Lemma prefetch_twice_counterexample :
  opt_prefetch (opts (router (EventLoop.fresh Scenario.home))) = true /\
  In "https://a.example/docs#intro" (links Scenario.home) /\
  Spec.keep (EventLoop.fresh Scenario.home) "https://a.example/docs#intro" = true /\
  count_occ string_dec
    (prefetched (router (snd (Router.prefetch (snd (Router.prefetch
       (EventLoop.fresh Scenario.home)))))))
    "https://a.example/docs#intro" = 0.
Proof.
  split; [reflexivity|].
  split; [simpl; tauto|].
  split; vm_compute; reflexivity.
Qed.

(** ** What each segment of a cycle does *)

Ltac open_world w :=
  let en := fresh "en" in
  let pf := fresh "pf" in
  let lg := fresh "lg" in
  let po := fresh "po" in
  let pt := fresh "pt" in
  let h := fresh "h" in
  let ls := fresh "ls" in
  let tr := fresh "tr" in
  destruct w as [[en pf [lg po pt]] h ls tr].

Ltac run_segment :=
  cbv [Router.reconstructDOM Router.reconstructDOM_fetched
       Router.reconstructDOM_text Router.on_error Router.log
       Handlers.addToPushState Handlers.scrollToTop
       try_catch bind get getOpts modify emit ret throw when dispatchEvent
       with_trace pushed set_host set_router time_start time_end
       failure_effects fetch_event end_event has_history];
  simpl.

Lemma reconstructDOM_disabled (d : RouteChangeData) (w : World) :
  enabled (router w) = false ->
  Router.reconstructDOM d w =
  (Ok (Router.Return Router.Undefined),
   with_trace [ConsoleLog ["router disabled"]] w).
Proof.
  open_world w. simpl. intros ->. reflexivity.
Qed.

Lemma reconstructDOM_skipped (d : RouteChangeData) (w : World) :
  enabled (router w) = true ->
  Router.eligible d = false ->
  Router.reconstructDOM d w =
  (Ok (Router.Return Router.Undefined),
   with_trace [ConsoleLog ["⚡"; rc_type d]] w).
Proof.
  open_world w. simpl. intros -> He. run_segment. rewrite He. reflexivity.
Qed.

Lemma reconstructDOM_started (d : RouteChangeData) (w : World) :
  enabled (router w) = true ->
  Router.eligible d = true ->
  has_history (host w) = true ->
  Router.reconstructDOM d w =
  (Ok (Router.Await (Router.AwaitFetch (rc_type d) (rc_next d))),
   with_trace
     ([ConsoleLog ["⚡"; rc_type d]] ++ time_start (opts (router w)) ++
      [fetch_event; HistoryPush (rc_next d); FetchStart (rc_next d)])
     (pushed (rc_next d) w)).
Proof.
  open_world w. destruct h as [[|[|]] og hr hi hd lk sc ht sy];
    simpl; intros -> He Hh; try discriminate Hh.
  all: run_segment; rewrite He;
    destruct lg; simpl; rewrite <- !app_assoc; reflexivity.
Qed.

Lemma reconstructDOM_unsupported (d : RouteChangeData) (w : World) :
  enabled (router w) = true ->
  Router.eligible d = true ->
  has_history (host w) = false ->
  Router.reconstructDOM d w =
  (Ok (Router.Return Router.False),
   with_trace
     ([ConsoleLog ["⚡"; rc_type d]] ++ time_start (opts (router w)) ++
      [fetch_event] ++
      failure_effects (opts (router w))
        (TypeError "window.history is undefined"))
     w).
Proof.
  open_world w. destruct h as [[|[|]] og hr hi hd lk sc ht sy];
    simpl; intros -> He Hh; try discriminate Hh.
  all: run_segment; rewrite He;
    destruct lg; simpl; rewrite <- !app_assoc; reflexivity.
Qed.

Lemma fetched_rejected (type next : string) (err : JsError) (w : World) :
  Router.reconstructDOM_fetched type next (FetchRejects err) w =
  (Ok (Router.Return Router.False),
   with_trace (failure_effects (opts (router w)) err) w).
Proof.
  open_world w. run_segment.
  destruct lg; simpl; rewrite <- !app_assoc; reflexivity.
Qed.

Lemma fetched_resolved (type next : string) (res : Response) (w : World) :
  Router.reconstructDOM_fetched type next (FetchResolves res) w =
  (Ok (Router.Await (Router.AwaitText type next)), w).
Proof. reflexivity. Qed.

Lemma text_rejected (type : string) (err : JsError) (w : World) :
  Router.reconstructDOM_text type (TextRejects err) w =
  (Ok (Router.Return Router.False),
   with_trace (failure_effects (opts (router w)) err) w).
Proof.
  open_world w. run_segment.
  destruct lg; simpl; rewrite <- !app_assoc; reflexivity.
Qed.

Lemma runScripts_run (w : World) :
  Dom.runScripts w = (Ok tt, with_trace (map ExecScript (scripts (host w))) w).
Proof.
  unfold Dom.runScripts, bind, get. apply forEach_emit.
Qed.

Lemma text_resolved (type : string) (html : Markup) (w : World) :
  Router.reconstructDOM_text type (TextResolves html) w =
  (Ok (Router.Return Router.Undefined),
   with_trace (time_end (opts (router w)))
     (after_requests (requested (merged type html w)) (merged type html w))).
Proof.
  open_world w. destruct h.
  cbv [Router.reconstructDOM_text try_catch bind get getOpts modify emit ret
       when dispatchEvent Dom.formatNextDocument Dom.mergeHead
       Dom.replaceBody Dom.transition_start Handlers.scrollToTop
       set_host set_router].
  cbn [router host listeners trace opts opt_pageTransitions has_transitions
       fst snd].
  destruct (pt && has_transitions0) eqn:Et;
    rewrite runScripts_run; cbv [with_trace];
    cbn [router host listeners trace scripts];
    destruct (Js.array_includes ["link"; "go"] type) eqn:Es;
    rewrite prefetch_run;
    cbv [merged merge_effects settled_host with_trace set_host after_requests
         time_end end_event];
    cbn [router host listeners trace opts opt_pageTransitions opt_log
         has_transitions enabled prefetched has_history origin href history
         head links scripts scrollY];
    rewrite ?Et, ?Es; destruct lg;
    cbn [app router host listeners trace];
    repeat (rewrite <- app_assoc; cbn [app]);
    rewrite ?app_nil_r; reflexivity.
Qed.

Lemma new_run (o : option FlamethrowerOptions) (w : World) :
  Router.new o w =
  (match window (host w) with
   | Undeclared => Throw (ReferenceError "window is not defined")
   | Declared _ => Ok tt
   end,
   after_requests (construction_requests o w) (installed o w)).
Proof.
  open_world w. destruct h as [[|[|]] og hr hi hd lk sc ht sy].
  - cbv [Router.new bind get modify throw set_router construction_requests
         installed].
    cbn [router host listeners trace window].
    rewrite after_requests_nil. reflexivity.
  - cbv [Router.new bind get modify emit addEventListener set_router
         construction_requests installed].
    cbn [router host listeners trace window].
    rewrite prefetch_run. cbn [router host listeners trace].
    repeat (rewrite <- app_assoc; cbn [app]). reflexivity.
  - cbv [Router.new bind get modify emit addEventListener set_router
         construction_requests installed].
    cbn [router host listeners trace window].
    rewrite prefetch_run. reflexivity.
Qed.

Lemma emitted_with_trace {A} (m : M A) (w w0 : World) (es : list Effect) (a : Result A) :
  m w = (a, with_trace es w0) -> trace w0 = trace w -> emitted m w = es.
Proof.
  intros E Ht. apply emitted_app. rewrite E. simpl. rewrite Ht. reflexivity.
Qed.

(** ** The disabled router *)

(** C6.  With [enabled] false a navigation intent only logs
    [router disabled]: the call returns at once, nothing is fetched, no
    notification is dispatched, no cycle is left pending, and the router,
    the host (its history stack with it) and the listeners stay as they
    were.  The same holds for [go] with a path that parses; a path that does
    not parse makes [go] throw before any intent exists, and then nothing is
    logged either. *)
Theorem disabled_noop (d : RouteChangeData) (w : World) :
  enabled (router w) = false ->
  fst (Router.reconstructDOM d w) = Ok (Router.Return Router.Undefined) /\
  emitted (Router.reconstructDOM d) w = [ConsoleLog ["router disabled"]] /\
  router (snd (Router.reconstructDOM d w)) = router w /\
  host (snd (Router.reconstructDOM d w)) = host w /\
  listeners (snd (Router.reconstructDOM d w)) = listeners w /\
  (forall URL_href path,
     (forall next, URL_href path (origin (host w)) = Some next ->
        fst (Router.go URL_href path w) = Ok (Router.Return Router.Undefined) /\
        emitted (Router.go URL_href path) w = [ConsoleLog ["router disabled"]]) /\
     (URL_href path (origin (host w)) = None ->
        fst (Router.go URL_href path w) = Throw (TypeError "Invalid URL") /\
        emitted (Router.go URL_href path) w = []) /\
     router (snd (Router.go URL_href path w)) = router w /\
     host (snd (Router.go URL_href path w)) = host w /\
     listeners (snd (Router.go URL_href path w)) = listeners w).
Proof.
  intros Hd. pose proof (reconstructDOM_disabled d w Hd) as E.
  split; [rewrite E; reflexivity|].
  split; [eapply emitted_with_trace; [exact E | reflexivity]|].
  split; [rewrite E; reflexivity|].
  split; [rewrite E; reflexivity|].
  split; [rewrite E; reflexivity|].
  intros URL_href path.
  assert (Hgo : Router.go URL_href path w
                = match URL_href path (origin (host w)) with
                  | Some _ => (Ok (Router.Return Router.Undefined),
                               with_trace [ConsoleLog ["router disabled"]] w)
                  | None => (Throw (TypeError "Invalid URL"), w)
                  end).
  { unfold Router.go, bind, get.
    destruct (URL_href path (origin (host w)));
      [apply reconstructDOM_disabled, Hd | reflexivity]. }
  destruct (URL_href path (origin (host w))) as [next|].
  - split; [|split; [discriminate | rewrite Hgo; repeat split]].
    intros n _. split; [rewrite Hgo; reflexivity|].
    eapply emitted_with_trace; [exact Hgo | reflexivity].
  - split; [discriminate|].
    split; [|rewrite Hgo; repeat split].
    intros _. split; [rewrite Hgo; reflexivity|].
    apply emitted_app. rewrite Hgo. symmetry. apply app_nil_r.
Qed.

Lemma disabled_noop_witness :
  enabled (router (set_router (fun r =>
    {| enabled := false; prefetched := prefetched r; opts := opts r |})
    (EventLoop.fresh Scenario.home))) = false /\
  emitted (Router.reconstructDOM Scenario.to_about)
    (set_router (fun r =>
       {| enabled := false; prefetched := prefetched r; opts := opts r |})
       (EventLoop.fresh Scenario.home))
  = [ConsoleLog ["router disabled"]].
Proof.
  split; [reflexivity|].
  apply (disabled_noop Scenario.to_about
           (set_router (fun r =>
              {| enabled := false; prefetched := prefetched r; opts := opts r |})
              (EventLoop.fresh Scenario.home))).
  reflexivity.
Defined.

(** ** The same-URL check *)

Lemma same_url_not_eligible (d : RouteChangeData) :
  rc_next d = rc_prev d -> Router.eligible d = false.
Proof.
  intros E. unfold Router.eligible. rewrite E, String.eqb_refl.
  apply andb_false_r.
Qed.

(** What a call that starts no cycle can emit. *)
Lemma reconstructDOM_same_url (d : RouteChangeData) (w : World) :
  rc_next d = rc_prev d ->
  exists line,
    Router.reconstructDOM d w
    = (Ok (Router.Return Router.Undefined), with_trace [ConsoleLog line] w).
Proof.
  intros E. destruct (enabled (router w)) eqn:En.
  - exists ["⚡"; rc_type d].
    apply reconstructDOM_skipped; [exact En | apply same_url_not_eligible, E].
  - exists ["router disabled"]. apply reconstructDOM_disabled, En.
Qed.

(** C5.  When [next === prev] the cycle is skipped: the call returns at
    once with a single console line, so no request goes out, no
    [router:fetch] is dispatched and nothing is pushed on the history stack;
    the host stays as it was. *)
Theorem same_url_skipped (d : RouteChangeData) (w : World) :
  rc_next d = rc_prev d ->
  fst (Router.reconstructDOM d w) = Ok (Router.Return Router.Undefined) /\
  filter is_fetch (emitted (Router.reconstructDOM d) w) = [] /\
  filter is_dispatch (emitted (Router.reconstructDOM d) w) = [] /\
  filter is_history (emitted (Router.reconstructDOM d) w) = [] /\
  history (host (snd (Router.reconstructDOM d w))) = history (host w) /\
  host (snd (Router.reconstructDOM d w)) = host w.
Proof.
  intros E. destruct (reconstructDOM_same_url d w E) as [line Hrun].
  assert (Hem : emitted (Router.reconstructDOM d) w = [ConsoleLog line])
    by (eapply emitted_with_trace; [exact Hrun | reflexivity]).
  rewrite Hem, Hrun. repeat split.
Qed.

Lemma same_url_skipped_witness :
  rc_next Scenario.same_page = rc_prev Scenario.same_page /\
  fst (Router.reconstructDOM Scenario.same_page
         (EventLoop.world (EventLoop.boot Scenario.home None)))
  = Ok (Router.Return Router.Undefined) /\
  filter is_fetch (emitted (Router.reconstructDOM Scenario.same_page)
         (EventLoop.world (EventLoop.boot Scenario.home None))) = [].
Proof.
  split; [reflexivity|].
  pose proof (same_url_skipped Scenario.same_page
                (EventLoop.world (EventLoop.boot Scenario.home None))
                eq_refl) as H.
  split; [apply H | apply H].
Defined.

(** ** The optimistic history push *)

Lemma time_start_no_fetch (o : Opts) (u : string) :
  ~ In (FetchStart u) (time_start o).
Proof.
  unfold time_start. destruct (opt_log o); simpl; intuition discriminate.
Qed.

Lemma failure_effects_no_fetch (o : Opts) (err : JsError) (u : string) :
  ~ In (FetchStart u) (failure_effects o err).
Proof.
  unfold failure_effects, time_end.
  destruct (opt_log o); simpl; intuition discriminate.
Qed.

(** C7.  In a cycle that passes the eligibility check, a request only goes
    out for [next] and only after [next] was pushed on the history stack:
    whatever precedes the request in the trace holds the push and no
    request.  On a host with a history the request does go out, and the
    entry is on the stack whatever the fetch settles to, a rejection
    included. *)
Theorem history_push_before_fetch (d : RouteChangeData) (w : World) :
  enabled (router w) = true ->
  Router.eligible d = true ->
  (forall u, In (FetchStart u) (emitted (Router.reconstructDOM d) w) ->
     u = rc_next d /\
     exists pre post,
       emitted (Router.reconstructDOM d) w = pre ++ FetchStart u :: post /\
       In (HistoryPush (rc_next d)) pre /\
       filter is_fetch pre = [] /\ post = []) /\
  (has_history (host w) = true ->
     In (FetchStart (rc_next d)) (emitted (Router.reconstructDOM d) w) /\
     history (host (snd (Router.reconstructDOM d w)))
     = history (host w) ++ [rc_next d] /\
     forall o,
       history (host (snd (Router.reconstructDOM_fetched (rc_type d) (rc_next d) o
                             (snd (Router.reconstructDOM d w)))))
       = history (host w) ++ [rc_next d]).
Proof.
  intros En El. destruct (has_history (host w)) eqn:Hh.
  - pose proof (reconstructDOM_started d w En El Hh) as Hrun.
    assert (Hem : emitted (Router.reconstructDOM d) w
                  = [ConsoleLog ["⚡"; rc_type d]] ++
                    time_start (opts (router w)) ++
                    [fetch_event; HistoryPush (rc_next d);
                     FetchStart (rc_next d)])
      by (eapply emitted_with_trace; [exact Hrun | reflexivity]).
    split.
    + intros u Hu. rewrite Hem in Hu.
      assert (u = rc_next d) as ->.
      { apply in_app_iff in Hu. destruct Hu as [[Hu | []] | Hu];
          [discriminate|].
        apply in_app_iff in Hu. destruct Hu as [Hu | Hu].
        - exfalso. exact (time_start_no_fetch _ _ Hu).
        - simpl in Hu. unfold fetch_event in Hu.
          destruct Hu as [Hu | [Hu | [Hu | []]]];
            try discriminate; congruence. }
      split; [reflexivity|].
      exists ([ConsoleLog ["⚡"; rc_type d]] ++ time_start (opts (router w)) ++
              [fetch_event; HistoryPush (rc_next d)]), [].
      repeat split.
      * rewrite Hem, <- !app_assoc. reflexivity.
      * apply in_app_iff. right. apply in_app_iff. right.
        right. left. reflexivity.
      * unfold time_start. destruct (opt_log (opts (router w))); reflexivity.
    + intros _. split; [|split].
      * rewrite Hem. apply in_app_iff. right. apply in_app_iff. right.
        simpl. auto.
      * rewrite Hrun. reflexivity.
      * intros o. rewrite Hrun. destruct o as [err | res].
        -- rewrite fetched_rejected. reflexivity.
        -- rewrite fetched_resolved. reflexivity.
  - pose proof (reconstructDOM_unsupported d w En El Hh) as Hrun.
    assert (Hem : emitted (Router.reconstructDOM d) w
                  = [ConsoleLog ["⚡"; rc_type d]] ++
                    time_start (opts (router w)) ++ [fetch_event] ++
                    failure_effects (opts (router w))
                      (TypeError "window.history is undefined"))
      by (eapply emitted_with_trace; [exact Hrun | reflexivity]).
    split; [|discriminate].
    intros u Hu. exfalso. rewrite Hem in Hu.
    apply in_app_iff in Hu. destruct Hu as [[Hu | []] | Hu]; [discriminate|].
    apply in_app_iff in Hu. destruct Hu as [Hu | Hu];
      [exact (time_start_no_fetch _ _ Hu)|].
    apply in_app_iff in Hu. destruct Hu as [[Hu | []] | Hu]; [discriminate|].
    exact (failure_effects_no_fetch _ _ _ Hu).
Qed.

Lemma history_push_before_fetch_witness :
  enabled (router (EventLoop.world (EventLoop.boot Scenario.home None))) = true /\
  Router.eligible Scenario.to_about = true /\
  has_history (host (EventLoop.world (EventLoop.boot Scenario.home None))) = true /\
  history (host (snd (Router.reconstructDOM_fetched "link" "https://a.example/about"
                        (FetchRejects Scenario.offline)
                        (snd (Router.reconstructDOM Scenario.to_about
                                (EventLoop.world (EventLoop.boot Scenario.home None)))))))
  = ["https://a.example/about"].
Proof.
  split; [reflexivity | split; [reflexivity | split; [reflexivity|]]].
  apply (history_push_before_fetch Scenario.to_about
           (EventLoop.world (EventLoop.boot Scenario.home None))
           eq_refl eq_refl).
  reflexivity.
Defined.

(** ** Failures of a cycle *)

Lemma filter_map_none {A B} (p : B -> bool) (f : A -> B) (l : list A) :
  (forall x, p (f x) = false) -> filter p (map f l) = [].
Proof.
  intros H. induction l as [|x l IH]; simpl; [reflexivity|].
  rewrite H. exact IH.
Qed.

Lemma filter_map_all {A B} (p : B -> bool) (f : A -> B) (l : list A) :
  (forall x, p (f x) = true) -> filter p (map f l) = map f l.
Proof.
  intros H. induction l as [|x l IH]; simpl; [reflexivity|].
  rewrite H, IH. reflexivity.
Qed.

Lemma failure_effects_dispatch (o : Opts) (err : JsError) :
  filter is_dispatch (failure_effects o err)
  = [DispatchEvent {| ev_type := "router:error"; ev_detail := err_detail err |}].
Proof.
  unfold failure_effects, time_end. destruct (opt_log o); reflexivity.
Qed.

Lemma failure_effects_logged (o : Opts) (err : JsError) :
  In (ConsoleError "💥 router fetch failed" err) (failure_effects o err).
Proof.
  unfold failure_effects. apply in_app_iff. right. apply in_app_iff. right.
  left. reflexivity.
Qed.

Lemma text_resolved_emitted (type : string) (html : Markup) (w : World) :
  emitted (Router.reconstructDOM_text type (TextResolves html)) w
  = merge_effects (opts (router w)) (host w) type html ++
    map request (requested (merged type html w)) ++
    time_end (opts (router w)).
Proof.
  apply emitted_app. rewrite text_resolved.
  unfold with_trace, after_requests, merged, with_trace.
  cbn [snd trace]. rewrite <- !app_assoc. reflexivity.
Qed.

Lemma merge_effects_dispatch (o : Opts) (h : Host) (type : string) (html : Markup) :
  filter is_dispatch (merge_effects o h type html) = [end_event].
Proof.
  unfold merge_effects.
  rewrite !filter_app, (filter_map_none is_dispatch ExecScript) by reflexivity.
  destruct (opt_pageTransitions o && has_transitions h);
    destruct (Js.array_includes ["link"; "go"] type); reflexivity.
Qed.

Lemma time_end_dispatch (o : Opts) : filter is_dispatch (time_end o) = [].
Proof. unfold time_end. destruct (opt_log o); reflexivity. Qed.

(** C2, as amended.  When the [fetch] of a cycle rejects, or the reading of
    the response body does, the cycle ends in the [catch] block: one
    [router:error] notification and no other, the error on the console, the
    value [false] for the caller, and no exception out of the call; router
    and host stay as they were.  A response that arrives is not a failure,
    whatever its status: the cycle goes on to read and merge it, returns
    [undefined], and dispatches [router:end] and no [router:error]. *)
Theorem fetch_failure_isolated (type next : string) (err : JsError)
    (res : Response) (html : Markup) (w : World) :
  (fst (Router.reconstructDOM_fetched type next (FetchRejects err) w)
   = Ok (Router.Return Router.False) /\
   (exists ev,
      filter is_dispatch
        (emitted (Router.reconstructDOM_fetched type next (FetchRejects err)) w)
      = [DispatchEvent ev] /\ ev_type ev = "router:error") /\
   In (ConsoleError "💥 router fetch failed" err)
      (emitted (Router.reconstructDOM_fetched type next (FetchRejects err)) w) /\
   router (snd (Router.reconstructDOM_fetched type next (FetchRejects err) w))
   = router w /\
   host (snd (Router.reconstructDOM_fetched type next (FetchRejects err) w))
   = host w) /\
  (fst (Router.reconstructDOM_text type (TextRejects err) w)
   = Ok (Router.Return Router.False) /\
   (exists ev,
      filter is_dispatch
        (emitted (Router.reconstructDOM_text type (TextRejects err)) w)
      = [DispatchEvent ev] /\ ev_type ev = "router:error") /\
   In (ConsoleError "💥 router fetch failed" err)
      (emitted (Router.reconstructDOM_text type (TextRejects err)) w) /\
   router (snd (Router.reconstructDOM_text type (TextRejects err) w))
   = router w /\
   host (snd (Router.reconstructDOM_text type (TextRejects err) w))
   = host w) /\
  Router.reconstructDOM_fetched type next (FetchResolves res) w
  = (Ok (Router.Await (Router.AwaitText type next)), w) /\
  fst (Router.reconstructDOM_text type (TextResolves html) w)
  = Ok (Router.Return Router.Undefined) /\
  filter is_dispatch
    (emitted (Router.reconstructDOM_text type (TextResolves html)) w)
  = [end_event].
Proof.
  assert (Hf : emitted (Router.reconstructDOM_fetched type next (FetchRejects err)) w
               = failure_effects (opts (router w)) err)
    by (eapply emitted_with_trace; [apply fetched_rejected | reflexivity]).
  assert (Ht : emitted (Router.reconstructDOM_text type (TextRejects err)) w
               = failure_effects (opts (router w)) err)
    by (eapply emitted_with_trace; [apply text_rejected | reflexivity]).
  split; [|split; [|split; [|split]]].
  - rewrite Hf, fetched_rejected. repeat split.
    + eexists. split; [apply failure_effects_dispatch | reflexivity].
    + apply failure_effects_logged.
  - rewrite Ht, text_rejected. repeat split.
    + eexists. split; [apply failure_effects_dispatch | reflexivity].
    + apply failure_effects_logged.
  - apply fetched_resolved.
  - rewrite text_resolved. reflexivity.
  - rewrite text_resolved_emitted, !filter_app, merge_effects_dispatch,
      time_end_dispatch, (filter_map_none is_dispatch request) by reflexivity.
    reflexivity.
Qed.

(** C2 fails as the specification words it.  The server answers the click
    on the link to the about page with status 500 and an error page: the
    cycle merges the error page (its script runs), dispatches [router:end]
    and no [router:error], and returns [undefined], not [false]. *)
Lemma http_500_counterexample :
  Router.reconstructDOM Scenario.to_about
    (EventLoop.world (EventLoop.boot Scenario.home None))
  = (Ok (Router.Await (Router.AwaitFetch "link" "https://a.example/about")),
     snd (Router.reconstructDOM Scenario.to_about
            (EventLoop.world (EventLoop.boot Scenario.home None)))) /\
  Router.reconstructDOM_fetched "link" "https://a.example/about"
    (FetchResolves {| res_status := 500 |})
    (snd (Router.reconstructDOM Scenario.to_about
            (EventLoop.world (EventLoop.boot Scenario.home None))))
  = (Ok (Router.Await (Router.AwaitText "link" "https://a.example/about")),
     snd (Router.reconstructDOM Scenario.to_about
            (EventLoop.world (EventLoop.boot Scenario.home None)))) /\
  fst (Router.reconstructDOM_text "link" (TextResolves Scenario.error_page)
         (snd (Router.reconstructDOM Scenario.to_about
                 (EventLoop.world (EventLoop.boot Scenario.home None)))))
  = Ok (Router.Return Router.Undefined) /\
  filter is_dispatch
    (emitted (Router.reconstructDOM_text "link" (TextResolves Scenario.error_page))
       (snd (Router.reconstructDOM Scenario.to_about
               (EventLoop.world (EventLoop.boot Scenario.home None)))))
  = [end_event] /\
  filter is_exec
    (emitted (Router.reconstructDOM_text "link" (TextResolves Scenario.error_page))
       (snd (Router.reconstructDOM Scenario.to_about
               (EventLoop.world (EventLoop.boot Scenario.home None)))))
  = [ExecScript "report()"].
Proof.
  split; [vm_compute; reflexivity|].
  split; [vm_compute; reflexivity|].
  split; [vm_compute; reflexivity|].
  split; vm_compute; reflexivity.
Qed.

(** ** Scripts of the fetched body *)

Lemma time_end_plain (p : Effect -> bool) (o : Opts) :
  p (ConsoleTimeEnd "⏱️") = false -> filter p (time_end o) = [].
Proof. intros H. unfold time_end. destruct (opt_log o); simpl; rewrite ?H; reflexivity. Qed.

(** C8.  A cycle whose response text arrives ends normally, and what it
    executes is the list of the scripts of the fetched body, each element
    once and in document order.  The trace of the cycle splits at the
    replacement of the body: nothing is executed before it, everything after
    it, and the body is not replaced again. *)
Theorem scripts_rerun_after_body (type : string) (html : Markup) (w : World) :
  fst (Router.reconstructDOM_text type (TextResolves html) w)
  = Ok (Router.Return Router.Undefined) /\
  scripts (host (snd (Router.reconstructDOM_text type (TextResolves html) w)))
  = mk_scripts html /\
  filter is_exec (emitted (Router.reconstructDOM_text type (TextResolves html)) w)
  = map ExecScript (mk_scripts html) /\
  exists pre post,
    emitted (Router.reconstructDOM_text type (TextResolves html)) w
    = pre ++ ReplaceBody :: post /\
    filter is_exec pre = [] /\
    filter is_replace pre = [] /\
    filter is_exec post = map ExecScript (mk_scripts html) /\
    filter is_replace post = [].
Proof.
  rewrite text_resolved_emitted. rewrite text_resolved.
  split; [reflexivity | split; [reflexivity|]].
  set (tail := map request (requested (merged type html w)) ++
               time_end (opts (router w))).
  assert (Htail_exec : filter is_exec tail = []).
  { unfold tail. rewrite filter_app, (filter_map_none is_exec request) by reflexivity.
    apply time_end_plain. reflexivity. }
  assert (Htail_repl : filter is_replace tail = []).
  { unfold tail. rewrite filter_app, (filter_map_none is_replace request) by reflexivity.
    apply time_end_plain. reflexivity. }
  unfold merge_effects. split.
  - rewrite !filter_app, Htail_exec,
      (filter_map_all is_exec ExecScript) by reflexivity.
    destruct (opt_pageTransitions (opts (router w)) && has_transitions (host w));
      destruct (Js.array_includes ["link"; "go"] type);
      cbn [filter app is_exec end_event]; rewrite !app_nil_r; reflexivity.
  - exists ([ParseDocument; MergeHead] ++
            (if opt_pageTransitions (opts (router w)) && has_transitions (host w)
             then [TransitionStart] else [])),
           (map ExecScript (mk_scripts html) ++
            (if Js.array_includes ["link"; "go"] type then [ScrollToTop] else []) ++
            [end_event] ++ tail).
    split; [rewrite <- !app_assoc; reflexivity|].
    rewrite !filter_app, Htail_exec, Htail_repl,
      (filter_map_all is_exec ExecScript),
      (filter_map_none is_replace ExecScript) by reflexivity.
    destruct (opt_pageTransitions (opts (router w)) && has_transitions (host w));
      destruct (Js.array_includes ["link"; "go"] type);
      cbn [filter app is_exec is_replace end_event]; rewrite ?app_nil_r;
      repeat split.
Qed.

(** ** A host without a history *)




(** ** Steps of the event loop *)

Lemma quiet_refl (w : World) : quiet w w.
Proof.
  repeat split. exists []. rewrite app_nil_r. split; reflexivity.
Qed.

Lemma quiet_trans (w1 w2 w3 : World) : quiet w1 w2 -> quiet w2 w3 -> quiet w1 w3.
Proof.
  intros (Ho1 & Hp1 & Hg1 & es1 & Ht1 & Hf1) (Ho2 & Hp2 & Hg2 & es2 & Ht2 & Hf2).
  repeat split; try congruence.
  exists (es1 ++ es2). split.
  - rewrite Ht2, Ht1, app_assoc. reflexivity.
  - rewrite filter_app, Hf1, Hf2. reflexivity.
Qed.

Lemma quiet_with_trace (es : list Effect) (w : World) :
  filter is_append es = [] -> quiet w (with_trace es w).
Proof. intros H. repeat split. exists es. split; [reflexivity | exact H]. Qed.

Lemma quiet_pushed (es : list Effect) (url : string) (w : World) :
  filter is_append es = [] -> quiet w (with_trace es (pushed url w)).
Proof. intros H. repeat split. exists es. split; [reflexivity | exact H]. Qed.

Lemma time_start_append (o : Opts) : filter is_append (time_start o) = [].
Proof. unfold time_start. destruct (opt_log o); reflexivity. Qed.

Lemma time_end_append (o : Opts) : filter is_append (time_end o) = [].
Proof. unfold time_end. destruct (opt_log o); reflexivity. Qed.

Lemma failure_effects_append (o : Opts) (err : JsError) :
  filter is_append (failure_effects o err) = [].
Proof. unfold failure_effects, time_end. destruct (opt_log o); reflexivity. Qed.

Lemma merge_effects_append (o : Opts) (h : Host) (type : string) (html : Markup) :
  filter is_append (merge_effects o h type html) = [].
Proof.
  unfold merge_effects.
  rewrite !filter_app, (filter_map_none is_append ExecScript) by reflexivity.
  destruct (opt_pageTransitions o && has_transitions h);
    destruct (Js.array_includes ["link"; "go"] type); reflexivity.
Qed.

Lemma reconstructDOM_quiet (d : RouteChangeData) (w : World) :
  quiet w (snd (Router.reconstructDOM d w)).
Proof.
  destruct (enabled (router w)) eqn:En.
  - destruct (Router.eligible d) eqn:El.
    + destruct (has_history (host w)) eqn:Hh.
      * rewrite reconstructDOM_started by assumption. apply quiet_pushed.
        rewrite !filter_app, time_start_append. reflexivity.
      * rewrite reconstructDOM_unsupported by assumption.
        apply quiet_with_trace.
        rewrite !filter_app, time_start_append, failure_effects_append.
        reflexivity.
    + rewrite reconstructDOM_skipped by assumption.
      apply quiet_with_trace. reflexivity.
  - rewrite reconstructDOM_disabled by assumption.
    apply quiet_with_trace. reflexivity.
Qed.

Lemma fetched_quiet (type next : string) (o : FetchOutcome) (w : World) :
  quiet w (snd (Router.reconstructDOM_fetched type next o w)).
Proof.
  destruct o as [err | res].
  - rewrite fetched_rejected. apply quiet_with_trace, failure_effects_append.
  - rewrite fetched_resolved. apply quiet_refl.
Qed.

Lemma merged_quiet (type : string) (html : Markup) (w : World) :
  quiet w (merged type html w).
Proof.
  repeat split. eexists. split; [reflexivity | apply merge_effects_append].
Qed.

Lemma text_quiet_or_passed (type : string) (o : TextOutcome) (w : World) :
  quiet w (snd (Router.reconstructDOM_text type o w)) \/
  passed w (snd (Router.reconstructDOM_text type o w)).
Proof.
  destruct o as [err | html].
  - left. rewrite text_rejected. apply quiet_with_trace, failure_effects_append.
  - right. rewrite text_resolved.
    exists (merged type html w), (time_end (opts (router w))).
    split; [apply merged_quiet | split; [reflexivity | apply time_end_append]].
Qed.

Lemma settle_world (m : M Router.Completion) (w : World)
    (rest : list Router.Pending) :
  EventLoop.world (EventLoop.settle m w rest) = snd (m w).
Proof.
  unfold EventLoop.settle. destruct (m w) as [[[v | p] | e] w']; reflexivity.
Qed.

Lemma moved_quiet (url : string) (w : World) : quiet w (EventLoop.moved_to url w).
Proof. repeat split. exists []. rewrite app_nil_r. split; reflexivity. Qed.

Lemma back_quiet (w : World) : quiet w (snd (Router.back w)).
Proof.
  unfold Router.back, bind, get. destruct (has_history (host w)).
  - apply (quiet_with_trace [HistoryBack]). reflexivity.
  - apply quiet_refl.
Qed.

Lemma forward_quiet (w : World) : quiet w (snd (Router.forward w)).
Proof.
  unfold Router.forward, bind, get. destruct (has_history (host w)).
  - apply (quiet_with_trace [HistoryForward]). reflexivity.
  - apply quiet_refl.
Qed.

(** Every step is quiet or ends with a prefetch pass. *)
Lemma step_quiet_or_passed URL_href (i : EventLoop.Input)
    (s s' : EventLoop.System) :
  EventLoop.step URL_href i s = Some s' ->
  quiet (EventLoop.world s) (EventLoop.world s') \/
  passed (EventLoop.world s) (EventLoop.world s').
Proof.
  destruct i as [d | url d | path | | | b | n o | n o | url | url err];
    unfold EventLoop.step; intros H.
  - destruct (EventLoop.has_listener _ _ _); [|discriminate].
    injection H as <-. rewrite settle_world. left. apply reconstructDOM_quiet.
  - destruct (EventLoop.has_listener _ _ _); [|discriminate].
    injection H as <-. rewrite settle_world. left.
    eapply quiet_trans; [apply moved_quiet | apply reconstructDOM_quiet].
  - injection H as <-. rewrite settle_world. left.
    unfold Router.go, bind, get.
    destruct (URL_href path (origin (host (EventLoop.world s))));
      [apply reconstructDOM_quiet | apply quiet_refl].
  - injection H as <-. left. apply back_quiet.
  - injection H as <-. left. apply forward_quiet.
  - injection H as <-. left. repeat split. exists [].
    simpl. rewrite app_nil_r. split; reflexivity.
  - destruct (nth_error _ n) as [[type next | type next] |]; try discriminate.
    injection H as <-. rewrite settle_world. left. apply fetched_quiet.
  - destruct (nth_error _ n) as [[type next | type next] |]; try discriminate.
    injection H as <-. rewrite settle_world. apply text_quiet_or_passed.
  - destruct (existsb _ _); [|discriminate].
    injection H as <-. left.
    apply (quiet_with_trace [ConsoleLog ["🌩️ prefetched"; url]]). reflexivity.
  - destruct (existsb _ _); [|discriminate].
    injection H as <-. left.
    apply (quiet_with_trace
             [ConsoleLog ["🤕 can't prefetch"; url; err_message err]]).
    reflexivity.
Qed.

Lemma run_reachable URL_href (h : Host) (o : option FlamethrowerOptions)
    (inputs : list EventLoop.Input) (s s' : EventLoop.System) :
  EventLoop.reachable URL_href h o s ->
  EventLoop.run URL_href inputs s = Some s' ->
  EventLoop.reachable URL_href h o s'.
Proof.
  revert s; induction inputs as [|i inputs IH]; intros s Hs Hr; simpl in Hr.
  - injection Hr as <-. exact Hs.
  - destruct (EventLoop.step URL_href i s) as [s1|] eqn:E; [|discriminate].
    apply (IH s1); [|exact Hr].
    eapply EventLoop.reach_step; [exact Hs | exact E].
Qed.

(** ** The prefetched set over the life of the router *)

Lemma quiet_ok (og : string) (w w' : World) :
  prefetched_ok og w -> quiet w w' -> prefetched_ok og w'.
Proof.
  intros (Hg & Hn & Hv) (_ & Hp & Hg' & _). unfold prefetched_ok.
  rewrite Hp, Hg'. auto.
Qed.

Lemma pass_ok (og : string) (tail : list Effect) (w : World) :
  prefetched_ok og w ->
  prefetched_ok og (with_trace tail (after_requests (requested w) w)).
Proof.
  intros (Hg & Hn & Hv). unfold prefetched_ok. simpl.
  split; [exact Hg | split].
  - apply fold_set_add_NoDup, Hn.
  - intros v Hin. apply fold_set_add_In in Hin. destruct Hin as [Hin | Hin].
    + apply Hv, Hin.
    + apply requested_iff in Hin. destruct Hin as (_ & _ & Hk).
      apply keep_iff in Hk. rewrite Hg in Hk. tauto.
Qed.

Lemma passed_ok (og : string) (w w' : World) :
  prefetched_ok og w -> passed w w' -> prefetched_ok og w'.
Proof.
  intros Hok (w1 & tail & Hq & -> & _).
  apply pass_ok. eapply quiet_ok; [exact Hok | exact Hq].
Qed.

Lemma boot_world (h : Host) (o : option FlamethrowerOptions) :
  EventLoop.world (EventLoop.boot h o)
  = after_requests (construction_requests o (EventLoop.fresh h))
                   (installed o (EventLoop.fresh h)).
Proof. unfold EventLoop.boot. cbn [EventLoop.world]. rewrite new_run. reflexivity. Qed.

(** The constructor either runs its prefetch pass or, having thrown, asks
    for nothing. *)
Lemma construction_requests_cases (o : option FlamethrowerOptions) (w : World) :
  construction_requests o w = requested (installed o w) \/
  construction_requests o w = [].
Proof.
  unfold construction_requests. destruct (window (host w)); auto.
Qed.

Lemma installed_router (h : Host) (o : option FlamethrowerOptions) :
  router (installed o (EventLoop.fresh h))
  = {| enabled := true; prefetched := Js.set_empty; opts := mergeOpts o |} /\
  host (installed o (EventLoop.fresh h)) = h /\
  filter is_append (trace (installed o (EventLoop.fresh h))) = [].
Proof.
  unfold installed. cbn [EventLoop.fresh host].
  destruct (window h) as [|[|]]; repeat split.
Qed.

Lemma installed_ok (h : Host) (o : option FlamethrowerOptions) :
  prefetched_ok (origin h) (installed o (EventLoop.fresh h)).
Proof.
  destruct (installed_router h o) as (Hr & Hh & _).
  unfold prefetched_ok. rewrite Hr, Hh. simpl.
  split; [reflexivity | split; [constructor | intros v []]].
Qed.

Lemma with_trace_nil (w : World) : with_trace [] w = w.
Proof. unfold with_trace. rewrite app_nil_r. apply world_eta. Qed.

Lemma boot_ok (h : Host) (o : option FlamethrowerOptions) :
  prefetched_ok (origin h) (EventLoop.world (EventLoop.boot h o)).
Proof.
  rewrite boot_world.
  destruct (construction_requests_cases o (EventLoop.fresh h)) as [-> | ->].
  - rewrite <- with_trace_nil. apply pass_ok, installed_ok.
  - rewrite after_requests_nil. apply installed_ok.
Qed.

Lemma reachable_ok URL_href (h : Host) (o : option FlamethrowerOptions)
    (s : EventLoop.System) :
  EventLoop.reachable URL_href h o s ->
  prefetched_ok (origin h) (EventLoop.world s).
Proof.
  induction 1 as [|s i s' _ IH Hstep].
  - apply boot_ok.
  - destruct (step_quiet_or_passed URL_href i s s' Hstep) as [Hq | Hp].
    + eapply quiet_ok; [exact IH | exact Hq].
    + eapply passed_ok; [exact IH | exact Hp].
Qed.

(** What a pass adds was not the document's URL when the pass ran. *)
Lemma pass_grows (tail : list Effect) (w : World) :
  exists added,
    prefetched (router (with_trace tail (after_requests (requested w) w)))
    = prefetched (router w) ++ added /\
    forall v, In v added -> v <> current_page (host w).
Proof.
  destruct (fold_set_add_extends (requested w) (prefetched (router w)))
    as [added [E H]].
  exists added. split; [exact E|].
  intros v Hv. destruct (H v Hv) as [Hin _].
  apply requested_iff in Hin. destruct Hin as (_ & _ & Hk).
  apply keep_iff in Hk. tauto.
Qed.

Lemma step_grows URL_href (i : EventLoop.Input) (s s' : EventLoop.System) :
  EventLoop.step URL_href i s = Some s' ->
  exists added,
    prefetched (router (EventLoop.world s'))
    = prefetched (router (EventLoop.world s)) ++ added /\
    forall v, In v added -> v <> current_page (host (EventLoop.world s')).
Proof.
  intros Hstep.
  destruct (step_quiet_or_passed URL_href i s s' Hstep)
    as [(_ & Hp & _) | (w1 & tail & (_ & Hp & _) & E & _)].
  - exists []. rewrite app_nil_r. split; [exact Hp | intros v []].
  - destruct (pass_grows tail w1) as [added [Ea Ha]].
    exists added. rewrite E, Ea, Hp. split; [reflexivity | exact Ha].
Qed.

(** C3, as amended.  In every state the router can reach, the prefetched
    set holds no URL twice and no URL that contains a [#].  No step removes
    an element: a step appends to the set, and what it appends differs from
    the document's URL at that moment, as did what the constructor put in.
    (What the set holds with respect to the origin is left out here.) *)
Theorem prefetched_invariant URL_href (h : Host)
    (o : option FlamethrowerOptions) (s : EventLoop.System) :
  EventLoop.reachable URL_href h o s ->
  NoDup (prefetched (router (EventLoop.world s))) /\
  (forall v, In v (prefetched (router (EventLoop.world s))) ->
     Js.includes v "#" = false) /\
  (forall v, In v (prefetched (router (EventLoop.world (EventLoop.boot h o)))) ->
     v <> current_page h) /\
  (forall i s', EventLoop.step URL_href i s = Some s' ->
     exists added,
       prefetched (router (EventLoop.world s'))
       = prefetched (router (EventLoop.world s)) ++ added /\
       forall v, In v added -> v <> current_page (host (EventLoop.world s'))).
Proof.
  intros Hr. destruct (reachable_ok URL_href h o s Hr) as (_ & Hn & Hv).
  split; [exact Hn | split; [intros v Hin; apply (Hv v Hin) | split]].
  - intros v Hin. rewrite boot_world in Hin.
    destruct (installed_router h o) as (Hrt & Hh & _).
    destruct (construction_requests_cases o (EventLoop.fresh h)) as [E | E];
      rewrite E in Hin.
    + destruct (pass_grows [] (installed o (EventLoop.fresh h)))
        as [added [Ea Ha]].
      cbn [with_trace router] in Ea. rewrite Ea, Hrt in Hin. simpl in Hin.
      apply Ha in Hin. rewrite Hh in Hin. exact Hin.
    + rewrite after_requests_nil, Hrt in Hin. destruct Hin.
  - intros i s' Hstep. exact (step_grows URL_href i s s' Hstep).
Qed.

Lemma on_about_reachable (o : option FlamethrowerOptions) :
  EventLoop.reachable Scenario.URL_href Scenario.home o (on_about o).
Proof.
  unfold on_about.
  destruct (EventLoop.run Scenario.URL_href visit_about
              (EventLoop.boot Scenario.home o)) as [s|] eqn:E.
  - eapply run_reachable; [apply EventLoop.reach_boot | exact E].
  - apply EventLoop.reach_boot.
Qed.

Lemma prefetched_invariant_witness :
  EventLoop.reachable Scenario.URL_href Scenario.home None (on_about None) /\
  NoDup (prefetched (router (EventLoop.world (on_about None)))) /\
  (forall v, In v (prefetched (router (EventLoop.world (on_about None)))) ->
     Js.includes v "#" = false).
Proof.
  split; [apply on_about_reachable|].
  pose proof (prefetched_invariant Scenario.URL_href Scenario.home None
                (on_about None) (on_about_reachable None)) as H.
  split; apply H.
Defined.

(** C3 fails as the specification words it.  The home page links to the
    about page, which the constructor prefetches.  Once the link to the
    about page is followed, the document's URL is the about page's, and the
    set holds it. *)
Lemma prefetched_current_counterexample :
  EventLoop.run Scenario.URL_href visit_about (EventLoop.boot Scenario.home None)
  = Some (on_about None) /\
  EventLoop.reachable Scenario.URL_href Scenario.home None (on_about None) /\
  href (host (EventLoop.world (on_about None))) = "https://a.example/about" /\
  links (host (EventLoop.world (on_about None))) = mk_links Scenario.about /\
  Js.set_has (prefetched (router (EventLoop.world (on_about None))))
             (href (host (EventLoop.world (on_about None)))) = true.
Proof.
  split; [vm_compute; reflexivity|].
  split; [apply on_about_reachable|].
  split; [vm_compute; reflexivity|].
  split; vm_compute; reflexivity.
Qed.

(** ** The prefetch option *)

Lemma requested_off (w : World) :
  opt_prefetch (opts (router w)) = false -> requested w = [].
Proof. unfold requested. intros ->. reflexivity. Qed.

Lemma quiet_never (o : option FlamethrowerOptions) (w w' : World) :
  never_prefetched o w -> quiet w w' -> never_prefetched o w'.
Proof.
  intros (Ho & Hp & Ht) (Ho' & Hp' & _ & es & He & Hf). unfold never_prefetched.
  rewrite Ho', Hp', He, filter_app, Ht, Hf. auto.
Qed.

Lemma passed_never (o : option FlamethrowerOptions) (w w' : World) :
  opt_prefetch (mergeOpts o) = false ->
  never_prefetched o w -> passed w w' -> never_prefetched o w'.
Proof.
  intros Hoff Hn (w1 & tail & Hq & -> & Htail).
  destruct (quiet_never o w w1 Hn Hq) as (Ho & Hp & Ht).
  rewrite requested_off, after_requests_nil by (rewrite Ho; exact Hoff).
  unfold never_prefetched. simpl.
  rewrite filter_app, Ht, Htail. auto.
Qed.

Lemma boot_never (h : Host) (o : option FlamethrowerOptions) :
  opt_prefetch (mergeOpts o) = false ->
  never_prefetched o (EventLoop.world (EventLoop.boot h o)).
Proof.
  intros Hoff. rewrite boot_world.
  destruct (installed_router h o) as (Hr & _ & Ht).
  assert (Hnil : construction_requests o (EventLoop.fresh h) = []).
  { destruct (construction_requests_cases o (EventLoop.fresh h)) as [E | E];
      rewrite E; [|reflexivity].
    apply requested_off. rewrite Hr. exact Hoff. }
  rewrite Hnil, after_requests_nil.
  unfold never_prefetched. rewrite Hr, Ht. repeat split.
Qed.

(** C10.  With the prefetch option off, the prefetch pass is the identity
    in every state the router can reach, the state after the constructor and
    the states after settled cycles among them: the prefetched set is empty
    and nothing was ever appended to the head. *)
Theorem prefetch_off_noop URL_href (h : Host)
    (o : option FlamethrowerOptions) (s : EventLoop.System) :
  opt_prefetch (mergeOpts o) = false ->
  EventLoop.reachable URL_href h o s ->
  Router.prefetch (EventLoop.world s) = (Ok tt, EventLoop.world s) /\
  emitted Router.prefetch (EventLoop.world s) = [] /\
  prefetched (router (EventLoop.world s)) = [] /\
  filter is_append (trace (EventLoop.world s)) = [].
Proof.
  intros Hoff Hr.
  assert (Hn : never_prefetched o (EventLoop.world s)).
  { induction Hr as [|s i s' _ IH Hstep].
    - apply boot_never, Hoff.
    - destruct (step_quiet_or_passed URL_href i s s' Hstep) as [Hq | Hp].
      + eapply quiet_never; [exact IH | exact Hq].
      + eapply passed_never; [exact Hoff | exact IH | exact Hp]. }
  destruct Hn as (Ho & Hp & Ht).
  assert (Hreq : requested (EventLoop.world s) = [])
    by (apply requested_off; rewrite Ho; exact Hoff).
  split; [|split; [|split]].
  - rewrite prefetch_run, Hreq, after_requests_nil. reflexivity.
  - rewrite prefetch_emitted, Hreq. reflexivity.
  - exact Hp.
  - exact Ht.
Qed.

Lemma prefetch_off_noop_witness :
  opt_prefetch (mergeOpts Scenario.no_prefetch) = false /\
  EventLoop.reachable Scenario.URL_href Scenario.home Scenario.no_prefetch
    (on_about Scenario.no_prefetch) /\
  links (host (EventLoop.world (on_about Scenario.no_prefetch)))
  = mk_links Scenario.about /\
  Router.prefetch (EventLoop.world (on_about Scenario.no_prefetch))
  = (Ok tt, EventLoop.world (on_about Scenario.no_prefetch)) /\
  prefetched (router (EventLoop.world (on_about Scenario.no_prefetch))) = [].
Proof.
  split; [reflexivity|].
  split; [apply on_about_reachable|].
  split; [vm_compute; reflexivity|].
  pose proof (prefetch_off_noop Scenario.URL_href Scenario.home
                Scenario.no_prefetch (on_about Scenario.no_prefetch)
                eq_refl (on_about_reachable Scenario.no_prefetch)) as H.
  split; apply H.
Defined.

(** * Further properties of the router *)

(** ** The kinds of intent *)

(** X1.  An intent whose kind is none of [popstate], [link] and [go] starts
    no cycle on an enabled router, whatever its URLs: the call logs the kind
    and returns [undefined]; router and host stay as they were. *)
Theorem other_kinds_skipped (d : RouteChangeData) (w : World) :
  enabled (router w) = true ->
  Js.array_includes ["popstate"; "link"; "go"] (rc_type d) = false ->
  fst (Router.reconstructDOM d w) = Ok (Router.Return Router.Undefined) /\
  emitted (Router.reconstructDOM d) w = [ConsoleLog ["⚡"; rc_type d]] /\
  router (snd (Router.reconstructDOM d w)) = router w /\
  host (snd (Router.reconstructDOM d w)) = host w.
Proof.
  intros En Hk.
  assert (El : Router.eligible d = false)
    by (unfold Router.eligible; rewrite Hk; reflexivity).
  pose proof (reconstructDOM_skipped d w En El) as E.
  rewrite E. repeat split.
  eapply emitted_with_trace; [exact E | reflexivity].
Qed.

Lemma other_kinds_skipped_witness :
  enabled (router (EventLoop.fresh Scenario.home)) = true /\
  Js.array_includes ["popstate"; "link"; "go"] (rc_type disqualified) = false /\
  emitted (Router.reconstructDOM disqualified) (EventLoop.fresh Scenario.home)
  = [ConsoleLog ["⚡"; "disqualified"]].
Proof.
  split; [reflexivity | split; [reflexivity|]].
  apply (other_kinds_skipped disqualified (EventLoop.fresh Scenario.home)
           eq_refl eq_refl).
Defined.

(** ** More on the prefetch pass *)

Lemma requests_for_map (v : string) (urls : list string) :
  requests_for v (map request urls) = count_occ string_dec urls v.
Proof.
  unfold requests_for. induction urls as [|u urls IH]; simpl; [reflexivity|].
  destruct (string_dec u v) as [-> | Hne].
  - rewrite String.eqb_refl. simpl. rewrite IH. reflexivity.
  - apply String.eqb_neq in Hne. rewrite Hne. exact IH.
Qed.

Lemma count_occ_filter (p : string -> bool) (l : list string) (v : string) :
  count_occ string_dec (filter p l) v
  = if p v then count_occ string_dec l v else 0.
Proof.
  induction l as [|u l IH]; simpl.
  - destruct (p v); reflexivity.
  - destruct (string_dec u v) as [-> | Hne].
    + destruct (p v) eqn:E; simpl.
      * destruct (string_dec v v); [|congruence]. rewrite IH. reflexivity.
      * rewrite IH. reflexivity.
    + destruct (p u); simpl; [destruct (string_dec u v); [congruence|]|];
        exact IH.
Qed.

(** X2.  The filter runs over all links before any URL is recorded, so a
    URL that the document links to several times is requested once per
    link, while the prefetched set takes it once.  A URL the filter rejects,
    or any URL when the option is off, gets no request. *)
Theorem prefetch_request_count (w : World) (v : string) :
  requests_for v (emitted Router.prefetch w)
  = (if opt_prefetch (opts (router w)) && Router.keep w v
     then count_occ string_dec (links (host w)) v else 0) /\
  (opt_prefetch (opts (router w)) && Router.keep w v = true ->
   In v (links (host w)) ->
   count_occ string_dec (prefetched (router (snd (Router.prefetch w)))) v = 1).
Proof.
  split.
  - rewrite prefetch_emitted, requests_for_map. unfold requested.
    destruct (opt_prefetch (opts (router w))); [|reflexivity].
    apply count_occ_filter.
  - intros H Hl. apply andb_true_iff in H. destruct H as [Ho Hk].
    rewrite prefetch_run. simpl. apply fold_set_add_once.
    + apply keep_iff in Hk. tauto.
    + apply requested_iff. auto.
Qed.

Lemma appended_nodes_requests (urls : list string) :
  appended_nodes (map request urls) = map PrefetchLink urls.
Proof. induction urls as [|u urls IH]; simpl; [|rewrite IH]; reflexivity. Qed.

Lemma prefetch_request_count_witness :
  opt_prefetch (opts (router (EventLoop.fresh Scenario.home))) &&
  Router.keep (EventLoop.fresh Scenario.home) "https://a.example/about" = true /\
  requests_for "https://a.example/about"
    (emitted Router.prefetch (EventLoop.fresh Scenario.home)) = 2 /\
  count_occ string_dec
    (prefetched (router (snd (Router.prefetch (EventLoop.fresh Scenario.home)))))
    "https://a.example/about" = 1.
Proof.
  split; [vm_compute; reflexivity|].
  pose proof (prefetch_request_count (EventLoop.fresh Scenario.home)
                "https://a.example/about") as [Hn Hs].
  split.
  - rewrite Hn. vm_compute. reflexivity.
  - apply Hs; [vm_compute; reflexivity | simpl; tauto].
Defined.

(** X3.  A prefetch pass never throws, and it writes the prefetched set,
    the head and nothing else: the flag, the options, the listeners, the
    location, the history, the links and the scripts of the document stay as
    they were.  The head grows by exactly the link elements of the
    requests, and a URL is in the set afterwards exactly when it was there
    before or was requested by this pass. *)
Theorem prefetch_frame (w : World) :
  fst (Router.prefetch w) = Ok tt /\
  enabled (router (snd (Router.prefetch w))) = enabled (router w) /\
  opts (router (snd (Router.prefetch w))) = opts (router w) /\
  listeners (snd (Router.prefetch w)) = listeners w /\
  href (host (snd (Router.prefetch w))) = href (host w) /\
  origin (host (snd (Router.prefetch w))) = origin (host w) /\
  history (host (snd (Router.prefetch w))) = history (host w) /\
  links (host (snd (Router.prefetch w))) = links (host w) /\
  scripts (host (snd (Router.prefetch w))) = scripts (host w) /\
  head (host (snd (Router.prefetch w)))
  = head (host w) ++ appended_nodes (emitted Router.prefetch w) /\
  (forall v, In v (prefetched (router (snd (Router.prefetch w)))) <->
             In v (prefetched (router w)) \/
             In (request v) (emitted Router.prefetch w)).
Proof.
  rewrite prefetch_emitted, prefetch_run, appended_nodes_requests.
  repeat split; try reflexivity.
  - simpl. intros H. apply fold_set_add_In in H. destruct H as [H | H];
      [left; exact H | right; apply in_map, H].
  - simpl. intros [H | H]; apply fold_set_add_In; [left; exact H | right].
    apply in_map_iff in H. destruct H as [u [E Hu]].
    apply request_inj in E. subst. exact Hu.
Qed.

Lemma append_slash_neq (s : string) : (s ++ "/")%string <> s.
Proof.
  induction s as [|c s IH]; simpl; [discriminate|].
  intros E. injection E as E. exact (IH E).
Qed.

(** X4.  Of [href || href + '/'] only the left operand counts when the
    location is not empty: the filter compares a link with [location.href]
    alone.  A link to the document's own URL with a slash appended is
    therefore requested when it passes the other three tests. *)
Theorem trailing_slash_requested (w : World) :
  href (host w) <> EmptyString ->
  opt_prefetch (opts (router w)) = true ->
  In (href (host w) ++ "/")%string (links (host w)) ->
  Js.includes (href (host w) ++ "/") (origin (host w)) = true ->
  Js.includes (href (host w) ++ "/") "#" = false ->
  ~ In (href (host w) ++ "/")%string (prefetched (router w)) ->
  current_page (host w) = href (host w) /\
  In (request (href (host w) ++ "/")) (emitted Router.prefetch w).
Proof.
  intros Hne Ho Hl Hi Hh Hp.
  assert (Hc : current_page (host w) = href (host w)).
  { unfold current_page, Js.or. destruct (href (host w)); [congruence | reflexivity]. }
  split; [exact Hc|].
  rewrite prefetch_emitted. apply in_map. apply requested_iff.
  split; [exact Ho | split; [exact Hl|]].
  apply keep_iff. rewrite Hc.
  split; [exact Hi | split; [exact Hh | split; [apply append_slash_neq | exact Hp]]].
Qed.

Lemma trailing_slash_requested_witness :
  href (host (EventLoop.fresh about_page)) <> EmptyString /\
  In (request "https://a.example/about/")
     (emitted Router.prefetch (EventLoop.fresh about_page)).
Proof.
  split; [discriminate|].
  apply (trailing_slash_requested (EventLoop.fresh about_page)).
  - discriminate.
  - reflexivity.
  - simpl. tauto.
  - vm_compute. reflexivity.
  - vm_compute. reflexivity.
  - simpl. tauto.
Defined.

(** ** The constructor on a host with a history *)

(** X5.  On a host with a history the constructor returns normally with
    the router enabled and the options merged over the defaults, registers
    the click listener on the document and the popstate listener on the
    window, in this order, and writes nothing on the console; clicks can
    reach the router from then on.  The prefetched set then holds exactly
    the links of the page that pass the filter, when the option is on. *)
Theorem constructor_with_history (h : Host) (o : option FlamethrowerOptions) :
  has_history h = true ->
  fst (Router.new o (EventLoop.fresh h)) = Ok tt /\
  enabled (router (EventLoop.world (EventLoop.boot h o))) = true /\
  opts (router (EventLoop.world (EventLoop.boot h o))) = mergeOpts o /\
  listeners (EventLoop.world (EventLoop.boot h o))
  = [("document", "click"); ("window", "popstate")] /\
  filter is_console (trace (EventLoop.world (EventLoop.boot h o))) = [] /\
  (forall v, In v (prefetched (router (EventLoop.world (EventLoop.boot h o)))) <->
     opt_prefetch (mergeOpts o) = true /\ In v (links h) /\
     Js.includes v (origin h) = true /\ Js.includes v "#" = false /\
     v <> current_page h) /\
  (forall URL_href d,
     EventLoop.step URL_href (EventLoop.Click d) (EventLoop.boot h o) <> None).
Proof.
  intros Hh.
  assert (Hw : window h = Declared true).
  { unfold has_history in Hh. destruct (window h) as [|[|]]; congruence. }
  unfold EventLoop.boot, EventLoop.step, EventLoop.has_listener.
  cbn [EventLoop.world]. rewrite new_run.
  assert (Hi : installed o (EventLoop.fresh h)
               = {| router := {| enabled := true; prefetched := Js.set_empty;
                                 opts := mergeOpts o |};
                    host := h;
                    listeners := [("document", "click"); ("window", "popstate")];
                    trace := [AddEventListener "document" "click";
                              AddEventListener "window" "popstate"] |}).
  { unfold installed. cbn [EventLoop.fresh host]. rewrite Hw. reflexivity. }
  unfold construction_requests. cbn [EventLoop.fresh host]. rewrite Hw.
  change {| router := {| enabled := true; prefetched := Js.set_empty;
                         opts := defaultOpts |};
            host := h; listeners := []; trace := [] |}
    with (EventLoop.fresh h).
  rewrite Hi. cbn [fst snd after_requests router host listeners trace enabled opts].
  split; [reflexivity | split; [reflexivity | split; [reflexivity|]]].
  split; [reflexivity | split; [|split]].
  - rewrite filter_app, (filter_map_none is_console request) by reflexivity.
    reflexivity.
  - intros v. cbn [prefetched]. rewrite fold_set_add_In, requested_iff, keep_iff.
    cbn [router host opts prefetched Js.set_empty In]. tauto.
  - intros URL_href d. simpl. discriminate.
Qed.

Lemma constructor_with_history_witness :
  has_history Scenario.home = true /\
  listeners (EventLoop.world (EventLoop.boot Scenario.home None))
  = [("document", "click"); ("window", "popstate")].
Proof.
  split; [reflexivity|].
  pose proof (constructor_with_history Scenario.home None eq_refl)
    as (_ & _ & _ & H & _).
  exact H.
Defined.

(** ** The end of a successful cycle *)

Lemma filter_nil_In {A} (p : A -> bool) (l : list A) (x : A) :
  filter p l = [] -> In x l -> p x = false.
Proof.
  intros Hf Hin. destruct (p x) eqn:E; [|reflexivity].
  assert (H : In x (filter p l)) by (apply filter_In; auto).
  rewrite Hf in H. destruct H.
Qed.

(** X6.  When the cycle does not go through a native transition, the
    prefetch pass at its end runs over the links of the fetched page: the
    cycle requests a URL exactly when the option is on, the fetched body
    links to it, and it passes the filter against the location and the
    prefetched set of the moment. *)
Theorem settled_cycle_prefetches_new_links (type : string) (html : Markup)
    (w : World) (v : string) :
  opt_pageTransitions (opts (router w)) && has_transitions (host w) = false ->
  (In (request v)
      (emitted (Router.reconstructDOM_text type (TextResolves html)) w) <->
   opt_prefetch (opts (router w)) = true /\
   In v (mk_links html) /\
   Js.includes v (origin (host w)) = true /\
   Js.includes v "#" = false /\
   v <> current_page (host w) /\
   ~ In v (prefetched (router w))).
Proof.
  intros _.
  rewrite text_resolved_emitted, !in_app_iff.
  assert (Hm : ~ In (request v) (merge_effects (opts (router w)) (host w) type html)).
  { intros H. apply (filter_nil_In is_append) in H;
      [discriminate | apply merge_effects_append]. }
  assert (Ht : ~ In (request v) (time_end (opts (router w)))).
  { intros H. apply (filter_nil_In is_append) in H;
      [discriminate | apply time_end_append]. }
  assert (Hr : In (request v) (map request (requested (merged type html w))) <->
               In v (requested (merged type html w))).
  { rewrite in_map_iff. split.
    - intros [u [E Hu]]. apply request_inj in E. subst. exact Hu.
    - intros H. exists v. auto. }
  assert (Hq : In v (requested (merged type html w)) <->
               opt_prefetch (opts (router w)) = true /\
               In v (mk_links html) /\
               Js.includes v (origin (host w)) = true /\
               Js.includes v "#" = false /\
               v <> current_page (host w) /\
               ~ In v (prefetched (router w))).
  { rewrite requested_iff, keep_iff. reflexivity. }
  rewrite Hr, Hq. tauto.
Qed.

Lemma settled_cycle_prefetches_new_links_witness :
  opt_pageTransitions (opts (router (EventLoop.world awaiting_text))) &&
  has_transitions (host (EventLoop.world awaiting_text)) = false /\
  In "https://a.example/" (mk_links Scenario.about) /\
  In (request "https://a.example/")
     (emitted (Router.reconstructDOM_text "link" (TextResolves Scenario.about))
        (EventLoop.world awaiting_text)).
Proof.
  split; [vm_compute; reflexivity|].
  split; [simpl; tauto|].
  apply (settled_cycle_prefetches_new_links "link" Scenario.about
           (EventLoop.world awaiting_text) "https://a.example/").
  - vm_compute. reflexivity.
  - split; [vm_compute; reflexivity|].
    split; [simpl; tauto|].
    split; [vm_compute; reflexivity|].
    split; [vm_compute; reflexivity|].
    split; [vm_compute; discriminate|].
    vm_compute. intuition discriminate.
Defined.

(** X7.  Native transitions are used exactly when the option is on and the
    host has the capability; the body is replaced in either case. *)
Theorem transition_iff (type : string) (html : Markup) (w : World) :
  (In TransitionStart
      (emitted (Router.reconstructDOM_text type (TextResolves html)) w) <->
   opt_pageTransitions (opts (router w)) = true /\
   has_transitions (host w) = true) /\
  In ReplaceBody (emitted (Router.reconstructDOM_text type (TextResolves html)) w).
Proof.
  rewrite text_resolved_emitted. unfold merge_effects. split.
  - rewrite <- andb_true_iff.
    destruct (opt_pageTransitions (opts (router w)) && has_transitions (host w)).
    + split; [reflexivity | intros _; simpl; auto].
    + split; [|discriminate]. intros H. exfalso.
      apply (filter_nil_In is_transition) in H; [discriminate|].
      rewrite !filter_app, (filter_map_none is_transition ExecScript),
        (filter_map_none is_transition request), (time_end_plain is_transition)
        by reflexivity.
      destruct (Js.array_includes ["link"; "go"] type); reflexivity.
  - destruct (opt_pageTransitions (opts (router w)) && has_transitions (host w));
      simpl; auto.
Qed.

(** X8.  When the cycle does not go through a native transition, the
    segment that runs once the response text has arrived dispatches one
    notification, [router:end], and dispatches it when the document is
    final and before the prefetch pass: the parsing, the head merge, the
    body replacement and the scripts all precede it, and nothing follows it
    but the prefetch requests and the end of the timer. *)
Theorem end_event_position (type : string) (html : Markup) (w : World) :
  opt_pageTransitions (opts (router w)) && has_transitions (host w) = false ->
  exists pre post,
    emitted (Router.reconstructDOM_text type (TextResolves html)) w
    = pre ++ end_event :: post /\
    filter is_dispatch pre = [] /\
    filter is_append pre = [] /\
    filter is_replace pre = [ReplaceBody] /\
    filter is_exec pre = map ExecScript (mk_scripts html) /\
    post = map request (requested (merged type html w)) ++
           time_end (opts (router w)).
Proof.
  intros Hno.
  rewrite text_resolved_emitted. unfold merge_effects. rewrite Hno.
  exists ([ParseDocument; MergeHead] ++
          [ReplaceBody] ++ map ExecScript (mk_scripts html) ++
          (if Js.array_includes ["link"; "go"] type then [ScrollToTop] else [])),
         (map request (requested (merged type html w)) ++
          time_end (opts (router w))).
  split; [cbn [app]; rewrite <- !app_assoc; reflexivity|].
  rewrite !filter_app,
    (filter_map_none is_dispatch ExecScript),
    (filter_map_none is_append ExecScript),
    (filter_map_none is_replace ExecScript),
    (filter_map_all is_exec ExecScript) by reflexivity.
  destruct (Js.array_includes ["link"; "go"] type);
    cbn [filter app is_dispatch is_append is_replace is_exec];
    rewrite ?app_nil_r; repeat split.
Qed.

Lemma end_event_position_witness :
  opt_pageTransitions (opts (router (EventLoop.world awaiting_text))) &&
  has_transitions (host (EventLoop.world awaiting_text)) = false /\
  exists pre post,
    emitted (Router.reconstructDOM_text "link" (TextResolves Scenario.about))
      (EventLoop.world awaiting_text)
    = pre ++ end_event :: post /\
    filter is_replace pre = [ReplaceBody] /\
    filter is_exec pre = map ExecScript (mk_scripts Scenario.about).
Proof.
  split; [vm_compute; reflexivity|].
  destruct (end_event_position "link" Scenario.about
              (EventLoop.world awaiting_text))
    as (pre & post & E & _ & _ & Hr & He & _).
  - vm_compute. reflexivity.
  - exists pre, post. auto.
Defined.

(** ** Cycles that overlap *)

(** X9.  The [enabled] flag is read when a cycle starts and never again:
    a cycle that is suspended at [await res.text()] when the host disables
    the router still merges the page when the text arrives, replacing links
    and scripts and dispatching [router:end]. *)
Theorem disabling_does_not_abort URL_href (s : EventLoop.System) (n : nat)
    (type next : string) (html : Markup) :
  nth_error (EventLoop.pending s) n = Some (Router.AwaitText type next) ->
  exists s1 s2,
    EventLoop.step URL_href (EventLoop.SetEnabled false) s = Some s1 /\
    EventLoop.step URL_href (EventLoop.TextSettles n (TextResolves html)) s1
    = Some s2 /\
    enabled (router (EventLoop.world s2)) = false /\
    links (host (EventLoop.world s2)) = mk_links html /\
    scripts (host (EventLoop.world s2)) = mk_scripts html /\
    filter is_dispatch
      (skipn (length (trace (EventLoop.world s))) (trace (EventLoop.world s2)))
    = [end_event] /\
    EventLoop.pending s2 = EventLoop.remove_nth n (EventLoop.pending s).
Proof.
  intros Hn. eexists. eexists.
  split; [reflexivity|].
  cbn [EventLoop.step EventLoop.pending EventLoop.world]. rewrite Hn.
  split; [reflexivity|].
  rewrite settle_world.
  set (w1 := set_router _ (EventLoop.world s)).
  assert (Ht : trace w1 = trace (EventLoop.world s)) by reflexivity.
  split; [rewrite text_resolved; reflexivity|].
  split; [rewrite text_resolved; reflexivity|].
  split; [rewrite text_resolved; reflexivity|].
  split.
  - rewrite <- Ht.
    change (skipn (length (trace w1))
              (trace (snd (Router.reconstructDOM_text type (TextResolves html) w1))))
      with (emitted (Router.reconstructDOM_text type (TextResolves html)) w1).
    rewrite text_resolved_emitted, !filter_app, merge_effects_dispatch,
      time_end_dispatch, (filter_map_none is_dispatch request) by reflexivity.
    reflexivity.
  - unfold EventLoop.settle. rewrite text_resolved. reflexivity.
Qed.

Lemma disabling_does_not_abort_witness :
  nth_error (EventLoop.pending awaiting_text) 0
  = Some (Router.AwaitText "link" "https://a.example/about") /\
  exists s1 s2,
    EventLoop.step Scenario.URL_href (EventLoop.SetEnabled false) awaiting_text
    = Some s1 /\
    EventLoop.step Scenario.URL_href
      (EventLoop.TextSettles 0 (TextResolves Scenario.about)) s1 = Some s2 /\
    enabled (router (EventLoop.world s2)) = false /\
    links (host (EventLoop.world s2)) = mk_links Scenario.about.
Proof.
  split; [vm_compute; reflexivity|].
  destruct (disabling_does_not_abort Scenario.URL_href awaiting_text 0
              "link" "https://a.example/about" Scenario.about)
    as (s1 & s2 & H1 & H2 & H3 & H4 & _).
  - vm_compute. reflexivity.
  - exists s1, s2. auto.
Defined.

Lemma text_resolved_host (type : string) (html : Markup) (w : World) :
  host (snd (Router.reconstructDOM_text type (TextResolves html) w))
  = {| window := window (host w); origin := origin (host w);
       href := href (host w); history := history (host w);
       head := Dom.reconcile (map HeadTag (mk_head html)) (head (host w)) ++
               map PrefetchLink (requested (merged type html w));
       links := mk_links html; scripts := mk_scripts html;
       has_transitions := has_transitions (host w);
       scrollY := if Js.array_includes ["link"; "go"] type
                  then 0 else scrollY (host w) |}.
Proof. rewrite text_resolved. reflexivity. Qed.

(** X10.  Nothing orders two cycles that overlap.  When a second cycle is
    started before the first has settled and the second's page arrives
    first, the first's page is merged last and stays: the document shows the
    first target while the location and the top of the history are the
    second's. *)
Theorem last_merge_wins (dA dB : RouteChangeData) (htmlA htmlB : Markup)
    (w : World) :
  enabled (router w) = true ->
  has_history (host w) = true ->
  Router.eligible dA = true ->
  Router.eligible dB = true ->
  fst (Router.reconstructDOM dB (snd (Router.reconstructDOM dA w)))
  = Ok (Router.Await (Router.AwaitFetch (rc_type dB) (rc_next dB))) /\
  links (host (snd (Router.reconstructDOM_text (rc_type dA) (TextResolves htmlA)
    (snd (Router.reconstructDOM_text (rc_type dB) (TextResolves htmlB)
      (snd (Router.reconstructDOM dB (snd (Router.reconstructDOM dA w)))))))))
  = mk_links htmlA /\
  scripts (host (snd (Router.reconstructDOM_text (rc_type dA) (TextResolves htmlA)
    (snd (Router.reconstructDOM_text (rc_type dB) (TextResolves htmlB)
      (snd (Router.reconstructDOM dB (snd (Router.reconstructDOM dA w)))))))))
  = mk_scripts htmlA /\
  href (host (snd (Router.reconstructDOM_text (rc_type dA) (TextResolves htmlA)
    (snd (Router.reconstructDOM_text (rc_type dB) (TextResolves htmlB)
      (snd (Router.reconstructDOM dB (snd (Router.reconstructDOM dA w)))))))))
  = rc_next dB /\
  history (host (snd (Router.reconstructDOM_text (rc_type dA) (TextResolves htmlA)
    (snd (Router.reconstructDOM_text (rc_type dB) (TextResolves htmlB)
      (snd (Router.reconstructDOM dB (snd (Router.reconstructDOM dA w)))))))))
  = history (host w) ++ [rc_next dA; rc_next dB].
Proof.
  intros En Hh HA HB.
  rewrite (reconstructDOM_started dA w En HA Hh). cbn [snd].
  rewrite reconstructDOM_started; [| exact En | exact HB | exact Hh].
  cbn [fst snd]. rewrite !text_resolved_host.
  cbn [links scripts href history host with_trace pushed set_host].
  rewrite <- app_assoc. repeat split.
Qed.

Lemma last_merge_wins_witness :
  enabled (router (EventLoop.world (EventLoop.boot Scenario.home None))) = true /\
  Router.eligible Scenario.to_about = true /\
  Router.eligible to_docs = true /\
  links (host (snd (Router.reconstructDOM_text "link" (TextResolves Scenario.about)
    (snd (Router.reconstructDOM_text "go" (TextResolves docs)
      (snd (Router.reconstructDOM to_docs (snd (Router.reconstructDOM Scenario.to_about
        (EventLoop.world (EventLoop.boot Scenario.home None)))))))))))
  = mk_links Scenario.about /\
  href (host (snd (Router.reconstructDOM_text "link" (TextResolves Scenario.about)
    (snd (Router.reconstructDOM_text "go" (TextResolves docs)
      (snd (Router.reconstructDOM to_docs (snd (Router.reconstructDOM Scenario.to_about
        (EventLoop.world (EventLoop.boot Scenario.home None)))))))))))
  = "https://a.example/docs".
Proof.
  split; [reflexivity | split; [reflexivity | split; [reflexivity|]]].
  pose proof (last_merge_wins Scenario.to_about to_docs Scenario.about docs
                (EventLoop.world (EventLoop.boot Scenario.home None))
                eq_refl eq_refl eq_refl eq_refl) as (_ & H1 & _ & H2 & _).
  split; [exact H1 | exact H2].
Defined.

(** ** Programmatic navigation *)

(** X11.  [go] resolves the path against the origin and compares the
    result with the location.  A path that does not parse makes [go] throw a
    [TypeError] at once, outside any [try], and nothing else happens.  On an
    enabled router with a history, a path that resolves to the current URL
    only logs the kind; a path that resolves to another URL starts a cycle
    of kind [go]: [router:fetch], the push of the resolved URL, the request
    for it, and the call suspended on the fetch. *)
Theorem go_outcome (URL_href : string -> string -> option string)
    (path : string) (w : World) :
  enabled (router w) = true ->
  has_history (host w) = true ->
  (URL_href path (origin (host w)) = None ->
   Router.go URL_href path w = (Throw (TypeError "Invalid URL"), w)) /\
  (URL_href path (origin (host w)) = Some (href (host w)) ->
   fst (Router.go URL_href path w) = Ok (Router.Return Router.Undefined) /\
   emitted (Router.go URL_href path) w = [ConsoleLog ["⚡"; "go"]] /\
   host (snd (Router.go URL_href path w)) = host w) /\
  (forall next,
     URL_href path (origin (host w)) = Some next ->
     next <> href (host w) ->
     fst (Router.go URL_href path w)
     = Ok (Router.Await (Router.AwaitFetch "go" next)) /\
     emitted (Router.go URL_href path) w
     = [ConsoleLog ["⚡"; "go"]] ++ time_start (opts (router w)) ++
       [fetch_event; HistoryPush next; FetchStart next] /\
     href (host (snd (Router.go URL_href path w))) = next /\
     history (host (snd (Router.go URL_href path w)))
     = history (host w) ++ [next]).
Proof.
  intros En Hh.
  split; [|split].
  - intros Hu. unfold Router.go, bind, get. rewrite Hu. reflexivity.
  - intros Hu.
    set (d := {| rc_type := "go"; rc_next := href (host w);
                 rc_prev := href (host w) |}).
    assert (El : Router.eligible d = false)
      by (apply same_url_not_eligible; reflexivity).
    assert (E : Router.go URL_href path w
                = (Ok (Router.Return Router.Undefined),
                   with_trace [ConsoleLog ["⚡"; "go"]] w)).
    { unfold Router.go, bind, get. rewrite Hu.
      exact (reconstructDOM_skipped d w En El). }
    rewrite E. repeat split.
    eapply emitted_with_trace; [exact E | reflexivity].
  - intros next Hu Hne.
    set (d := {| rc_type := "go"; rc_next := next; rc_prev := href (host w) |}).
    assert (El : Router.eligible d = true).
    { unfold Router.eligible. cbn [d rc_type rc_next rc_prev].
      apply String.eqb_neq in Hne. rewrite Hne. reflexivity. }
    assert (E : Router.go URL_href path w
                = (Ok (Router.Await (Router.AwaitFetch "go" next)),
                   with_trace
                     ([ConsoleLog ["⚡"; "go"]] ++ time_start (opts (router w)) ++
                      [fetch_event; HistoryPush next; FetchStart next])
                     (pushed next w))).
    { unfold Router.go, bind, get. rewrite Hu.
      exact (reconstructDOM_started d w En El Hh). }
    rewrite E. repeat split.
    eapply emitted_with_trace; [exact E | reflexivity].
Qed.

Lemma go_outcome_witness :
  enabled (router (EventLoop.world (EventLoop.boot Scenario.home None))) = true /\
  has_history (host (EventLoop.world (EventLoop.boot Scenario.home None))) = true /\
  fst (Router.go Scenario.URL_href "/about"
         (EventLoop.world (EventLoop.boot Scenario.home None)))
  = Ok (Router.Await (Router.AwaitFetch "go" "https://a.example/about")) /\
  fst (Router.go Scenario.URL_href "/"
         (EventLoop.world (EventLoop.boot Scenario.home None)))
  = Ok (Router.Return Router.Undefined) /\
  fst (Router.go Scenario.URL_href ""
         (EventLoop.world (EventLoop.boot Scenario.home None)))
  = Throw (TypeError "Invalid URL").
Proof.
  split; [reflexivity | split; [reflexivity|]].
  pose proof (go_outcome Scenario.URL_href "/about"
                (EventLoop.world (EventLoop.boot Scenario.home None))
                eq_refl eq_refl) as (_ & _ & Hstart).
  pose proof (go_outcome Scenario.URL_href "/"
                (EventLoop.world (EventLoop.boot Scenario.home None))
                eq_refl eq_refl) as (_ & Hskip & _).
  pose proof (go_outcome Scenario.URL_href ""
                (EventLoop.world (EventLoop.boot Scenario.home None))
                eq_refl eq_refl) as (Hthrow & _ & _).
  split; [|split].
  - apply (Hstart "https://a.example/about");
      [vm_compute; reflexivity | vm_compute; discriminate].
  - apply Hskip. vm_compute. reflexivity.
  - rewrite Hthrow; [reflexivity | vm_compute; reflexivity].
Defined.

(** ** The books of the cycles *)

Lemma tally_app (p : Effect -> bool) (a b : list Effect) :
  tally p (a ++ b) = tally p a + tally p b.
Proof. unfold tally. rewrite filter_app, length_app. reflexivity. Qed.

Lemma tally_map_none {A} (p : Effect -> bool) (f : A -> Effect) (l : list A) :
  (forall x, p (f x) = false) -> tally p (map f l) = 0.
Proof. intros H. unfold tally. rewrite filter_map_none by exact H. reflexivity. Qed.

Lemma tally_time_start (p : Effect -> bool) (o : Opts) :
  tally p (time_start o)
  = if opt_log o then tally p [ConsoleTime "⏱️"] else 0.
Proof. unfold time_start. destruct (opt_log o); reflexivity. Qed.

Lemma tally_time_end (p : Effect -> bool) (o : Opts) :
  tally p (time_end o)
  = if opt_log o then tally p [ConsoleTimeEnd "⏱️"] else 0.
Proof. unfold time_end. destruct (opt_log o); reflexivity. Qed.

Ltac tally_up :=
  unfold ledger, failure_effects, merge_effects;
  rewrite ?tally_app, ?tally_time_start, ?tally_time_end;
  rewrite ?(tally_map_none _ request), ?(tally_map_none _ ExecScript)
    by reflexivity;
  repeat match goal with
         | |- context [if ?b then _ else _] => destruct b
         end;
  cbn; repeat split; try lia; try discriminate.

Lemma ledger_app (log hh : bool) (a b : list Effect) (p q r : nat) :
  ledger log hh a p q -> ledger log hh b q r -> ledger log hh (a ++ b) p r.
Proof.
  unfold ledger. rewrite !tally_app.
  intros (A1 & A2 & A3 & A4 & A5 & A6) (B1 & B2 & B3 & B4 & B5 & B6).
  split; [destruct log; lia|].
  split; [destruct log; lia|].
  split; [lia | split; [lia | split]].
  - intros H. specialize (A5 H). specialize (B5 H). lia.
  - intros H. specialize (A6 H). specialize (B6 H). lia.
Qed.

Lemma same_setup_refl (w : World) : same_setup w w.
Proof. repeat split. Qed.

Lemma same_setup_trans (w1 w2 w3 : World) :
  same_setup w1 w2 -> same_setup w2 w3 -> same_setup w1 w3.
Proof.
  intros (A1 & A2 & A3 & A4 & A5) (B1 & B2 & B3 & B4 & B5).
  repeat split; congruence.
Qed.

(** What the first segment of a cycle does to the books. *)
Lemma reconstructDOM_ledger (d : RouteChangeData) (w : World)
    (rest : list Router.Pending) :
  exists es,
    trace (EventLoop.world (EventLoop.settle (Router.reconstructDOM d) w rest))
    = trace w ++ es /\
    ledger (opt_log (opts (router w))) (has_history (host w)) es
      (length rest)
      (length (EventLoop.pending
                 (EventLoop.settle (Router.reconstructDOM d) w rest))) /\
    same_setup w
      (EventLoop.world (EventLoop.settle (Router.reconstructDOM d) w rest)) /\
    enabled (router (EventLoop.world
                       (EventLoop.settle (Router.reconstructDOM d) w rest)))
    = enabled (router w).
Proof.
  unfold EventLoop.settle.
  destruct (enabled (router w)) eqn:En.
  - destruct (Router.eligible d) eqn:El.
    + destruct (has_history (host w)) eqn:Hh.
      * rewrite reconstructDOM_started by assumption.
        eexists. split; [reflexivity|].
        cbn [EventLoop.pending EventLoop.world].
        rewrite length_app. cbn [length].
        split; [tally_up | split; [repeat split; assumption | exact En]].
      * rewrite reconstructDOM_unsupported by assumption.
        eexists. split; [reflexivity|].
        cbn [EventLoop.pending EventLoop.world].
        split; [tally_up | split; [repeat split | exact En]].
    + rewrite reconstructDOM_skipped by assumption.
      eexists. split; [reflexivity|].
      cbn [EventLoop.pending EventLoop.world].
      split; [tally_up | split; [repeat split | exact En]].
  - rewrite reconstructDOM_disabled by assumption.
    eexists. split; [reflexivity|].
    cbn [EventLoop.pending EventLoop.world].
    split; [tally_up | split; [repeat split | exact En]].
Qed.

Lemma remove_nth_length {A} (n : nat) (l : list A) (x : A) :
  nth_error l n = Some x -> S (length (EventLoop.remove_nth n l)) = length l.
Proof.
  revert l; induction n as [|n IH]; intros [|y l] H; simpl in *;
    try discriminate; [reflexivity|].
  rewrite (IH l H). reflexivity.
Qed.

Lemma fetched_ledger (type next : string) (o : FetchOutcome) (w : World)
    (rest : list Router.Pending) :
  exists es,
    trace (EventLoop.world
             (EventLoop.settle (Router.reconstructDOM_fetched type next o) w rest))
    = trace w ++ es /\
    ledger (opt_log (opts (router w))) (has_history (host w)) es
      (S (length rest))
      (length (EventLoop.pending
                 (EventLoop.settle (Router.reconstructDOM_fetched type next o)
                    w rest))) /\
    same_setup w
      (EventLoop.world
         (EventLoop.settle (Router.reconstructDOM_fetched type next o) w rest)) /\
    enabled (router (EventLoop.world
      (EventLoop.settle (Router.reconstructDOM_fetched type next o) w rest)))
    = enabled (router w).
Proof.
  unfold EventLoop.settle. destruct o as [err | res].
  - rewrite fetched_rejected. eexists. split; [reflexivity|].
    cbn [EventLoop.pending EventLoop.world].
    split; [tally_up | split; [repeat split | reflexivity]].
  - rewrite fetched_resolved. exists []. split; [symmetry; apply app_nil_r|].
    cbn [EventLoop.pending EventLoop.world].
    rewrite length_app. cbn [length].
    split; [tally_up | split; [repeat split | reflexivity]].
Qed.

Lemma text_ledger (type : string) (o : TextOutcome) (w : World)
    (rest : list Router.Pending) :
  exists es,
    trace (EventLoop.world
             (EventLoop.settle (Router.reconstructDOM_text type o) w rest))
    = trace w ++ es /\
    ledger (opt_log (opts (router w))) (has_history (host w)) es
      (S (length rest))
      (length (EventLoop.pending
                 (EventLoop.settle (Router.reconstructDOM_text type o) w rest))) /\
    same_setup w
      (EventLoop.world
         (EventLoop.settle (Router.reconstructDOM_text type o) w rest)) /\
    enabled (router (EventLoop.world
      (EventLoop.settle (Router.reconstructDOM_text type o) w rest)))
    = enabled (router w).
Proof.
  unfold EventLoop.settle. destruct o as [err | html].
  - rewrite text_rejected. eexists. split; [reflexivity|].
    cbn [EventLoop.pending EventLoop.world].
    split; [tally_up | split; [repeat split | reflexivity]].
  - rewrite text_resolved.
    exists (merge_effects (opts (router w)) (host w) type html ++
            map request (requested (merged type html w)) ++
            time_end (opts (router w))).
    split.
    { unfold with_trace, after_requests, merged, with_trace.
      cbn [EventLoop.world trace]. rewrite <- !app_assoc. reflexivity. }
    cbn [EventLoop.pending EventLoop.world].
    split; [tally_up | split; [repeat split | reflexivity]].
Qed.

(** What one step of the event loop does to the books. *)
Lemma step_ledger URL_href (i : EventLoop.Input) (s s' : EventLoop.System) :
  EventLoop.step URL_href i s = Some s' ->
  exists es,
    trace (EventLoop.world s') = trace (EventLoop.world s) ++ es /\
    ledger (opt_log (opts (router (EventLoop.world s))))
           (has_history (host (EventLoop.world s))) es
           (length (EventLoop.pending s)) (length (EventLoop.pending s')) /\
    same_setup (EventLoop.world s) (EventLoop.world s') /\
    (is_set_enabled i = false ->
     enabled (router (EventLoop.world s')) = enabled (router (EventLoop.world s))).
Proof.
  destruct i as [d | url d | path | | | b | n o | n o | url | url err];
    unfold EventLoop.step; intros H.
  - destruct (EventLoop.has_listener _ _ _); [|discriminate].
    injection H as <-.
    destruct (reconstructDOM_ledger d (EventLoop.world s) (EventLoop.pending s))
      as (es & Ht & Hl & Hs & He).
    exists es. auto.
  - destruct (EventLoop.has_listener _ _ _); [|discriminate].
    injection H as <-.
    destruct (reconstructDOM_ledger d (EventLoop.moved_to url (EventLoop.world s))
                (EventLoop.pending s)) as (es & Ht & Hl & Hs & He).
    exists es. auto.
  - injection H as <-.
    destruct (URL_href path (origin (host (EventLoop.world s)))) as [next|] eqn:Hu.
    + destruct (reconstructDOM_ledger
                  {| rc_type := "go"; rc_next := next;
                     rc_prev := href (host (EventLoop.world s)) |}
                  (EventLoop.world s) (EventLoop.pending s))
        as (es & Ht & Hl & Hs & He).
      unfold EventLoop.settle, Router.go, bind, get. rewrite Hu.
      exists es. auto.
    + unfold EventLoop.settle, Router.go, bind, get, throw. rewrite Hu.
      cbn [EventLoop.world EventLoop.pending].
      exists []. split; [symmetry; apply app_nil_r|].
      split; [tally_up | split; [repeat split | reflexivity]].
  - injection H as <-. cbn [EventLoop.world EventLoop.pending].
    unfold Router.back, bind, get.
    destruct (has_history (host (EventLoop.world s))) eqn:Hh.
    + exists [HistoryBack]. split; [reflexivity|].
      split; [tally_up | split; [repeat split | reflexivity]].
    + exists []. split; [symmetry; apply app_nil_r|].
      split; [tally_up | split; [repeat split | reflexivity]].
  - injection H as <-. cbn [EventLoop.world EventLoop.pending].
    unfold Router.forward, bind, get.
    destruct (has_history (host (EventLoop.world s))) eqn:Hh.
    + exists [HistoryForward]. split; [reflexivity|].
      split; [tally_up | split; [repeat split | reflexivity]].
    + exists []. split; [symmetry; apply app_nil_r|].
      split; [tally_up | split; [repeat split | reflexivity]].
  - injection H as <-. cbn [EventLoop.world EventLoop.pending].
    exists []. split; [symmetry; apply app_nil_r|].
    split; [tally_up | split; [repeat split | discriminate]].
  - destruct (nth_error _ n) as [[type next | type next] |] eqn:Hn;
      try discriminate.
    injection H as <-.
    destruct (fetched_ledger type next o (EventLoop.world s)
                (EventLoop.remove_nth n (EventLoop.pending s)))
      as (es & Ht & Hl & Hs & He).
    rewrite (remove_nth_length n _ _ Hn) in Hl.
    exists es. auto.
  - destruct (nth_error _ n) as [[type next | type next] |] eqn:Hn;
      try discriminate.
    injection H as <-.
    destruct (text_ledger type o (EventLoop.world s)
                (EventLoop.remove_nth n (EventLoop.pending s)))
      as (es & Ht & Hl & Hs & He).
    rewrite (remove_nth_length n _ _ Hn) in Hl.
    exists es. auto.
  - destruct (existsb _ _); [|discriminate].
    injection H as <-. cbn [EventLoop.world EventLoop.pending].
    eexists. split; [reflexivity|].
    split; [tally_up | split; [repeat split | reflexivity]].
  - destruct (existsb _ _); [|discriminate].
    injection H as <-. cbn [EventLoop.world EventLoop.pending].
    eexists. split; [reflexivity|].
    split; [tally_up | split; [repeat split | reflexivity]].
Qed.

Lemma boot_setup (h : Host) (o : option FlamethrowerOptions) :
  opts (router (EventLoop.world (EventLoop.boot h o))) = mergeOpts o /\
  origin (host (EventLoop.world (EventLoop.boot h o))) = origin h /\
  has_history (host (EventLoop.world (EventLoop.boot h o))) = has_history h /\
  has_transitions (host (EventLoop.world (EventLoop.boot h o)))
  = has_transitions h /\
  ledger (opt_log (mergeOpts o)) (has_history h)
    (trace (EventLoop.world (EventLoop.boot h o))) 0 0.
Proof.
  rewrite boot_world.
  unfold installed, construction_requests, has_history.
  cbn [EventLoop.fresh host].
  destruct (window h) as [|[|]] eqn:Hw;
    cbn [after_requests router host opts origin window has_transitions
         trace app];
    (split; [reflexivity | split; [reflexivity
       | split; [rewrite ?Hw; reflexivity | split; [reflexivity|]]]]);
    tally_up.
Qed.

(** What holds in every state the router can reach. *)
Lemma reachable_books URL_href (h : Host) (o : option FlamethrowerOptions)
    (s : EventLoop.System) :
  EventLoop.reachable URL_href h o s ->
  opts (router (EventLoop.world s)) = mergeOpts o /\
  listeners (EventLoop.world s)
  = listeners (EventLoop.world (EventLoop.boot h o)) /\
  origin (host (EventLoop.world s)) = origin h /\
  has_history (host (EventLoop.world s)) = has_history h /\
  has_transitions (host (EventLoop.world s)) = has_transitions h /\
  ledger (opt_log (mergeOpts o)) (has_history h)
    (trace (EventLoop.world s)) 0 (length (EventLoop.pending s)).
Proof.
  induction 1 as [|s i s' _ IH Hstep].
  - destruct (boot_setup h o) as (B1 & B2 & B3 & B4 & B5). auto 10.
  - destruct IH as (I1 & I2 & I3 & I4 & I5 & I6).
    destruct (step_ledger URL_href i s s' Hstep)
      as (es & Ht & Hl & (S1 & S2 & S3 & S4 & S5) & _).
    rewrite I1, I4 in Hl.
    split; [congruence | split; [congruence | split; [congruence|]]].
    split; [congruence | split; [congruence|]].
    rewrite Ht. eapply ledger_app; [exact I6 | exact Hl].
Qed.

Lemma awaiting_text_reachable :
  EventLoop.reachable Scenario.URL_href Scenario.home None awaiting_text.
Proof.
  unfold awaiting_text.
  destruct (EventLoop.run Scenario.URL_href _ (EventLoop.boot Scenario.home None))
    as [s|] eqn:E.
  - eapply run_reachable; [apply EventLoop.reach_boot | exact E].
  - apply EventLoop.reach_boot.
Qed.

(** X12.  Every cycle has exactly one outcome.  In every state the router
    can reach, the [router:fetch] notifications dispatched so far are as
    many as the [router:end] notifications, the [router:error]
    notifications and the suspended cycles together. *)
Theorem cycle_accounting URL_href (h : Host) (o : option FlamethrowerOptions)
    (s : EventLoop.System) :
  EventLoop.reachable URL_href h o s ->
  tally (is_dispatch_of "router:fetch") (trace (EventLoop.world s))
  = tally (is_dispatch_of "router:end") (trace (EventLoop.world s)) +
    tally (is_dispatch_of "router:error") (trace (EventLoop.world s)) +
    length (EventLoop.pending s).
Proof.
  intros Hr.
  destruct (reachable_books URL_href h o s Hr) as (_ & _ & _ & _ & _ & Hl).
  destruct Hl as (H & _). lia.
Qed.

Lemma cycle_accounting_witness :
  EventLoop.reachable Scenario.URL_href Scenario.home None awaiting_text /\
  length (EventLoop.pending awaiting_text) = 1 /\
  tally (is_dispatch_of "router:fetch") (trace (EventLoop.world awaiting_text))
  = tally (is_dispatch_of "router:end") (trace (EventLoop.world awaiting_text)) +
    tally (is_dispatch_of "router:error") (trace (EventLoop.world awaiting_text)) +
    length (EventLoop.pending awaiting_text).
Proof.
  split; [apply awaiting_text_reachable|].
  split; [vm_compute; reflexivity|].
  exact (cycle_accounting Scenario.URL_href Scenario.home None awaiting_text
           awaiting_text_reachable).
Defined.

(** X13.  The timers are balanced.  In every state the router can reach,
    the [console.time] calls made so far are as many as the
    [console.timeEnd] calls plus, when [opts.log] is on, the suspended
    cycles: a cycle stops its timer when it ends, whether it succeeds or
    fails.  When [opts.log] is off no timer is ever started or stopped. *)
Theorem timers_balanced URL_href (h : Host) (o : option FlamethrowerOptions)
    (s : EventLoop.System) :
  EventLoop.reachable URL_href h o s ->
  tally is_time (trace (EventLoop.world s))
  = tally is_time_end (trace (EventLoop.world s)) +
    (if opt_log (mergeOpts o) then length (EventLoop.pending s) else 0) /\
  (opt_log (mergeOpts o) = false ->
   tally is_time (trace (EventLoop.world s)) = 0 /\
   tally is_time_end (trace (EventLoop.world s)) = 0).
Proof.
  intros Hr.
  destruct (reachable_books URL_href h o s Hr) as (_ & _ & _ & _ & _ & Hl).
  destruct Hl as (_ & H & _ & _ & _ & H0).
  split.
  - destruct (opt_log (mergeOpts o)); lia.
  - intros Hoff. specialize (H0 Hoff). rewrite Hoff in H. lia.
Qed.

Lemma timers_balanced_witness :
  EventLoop.reachable Scenario.URL_href Scenario.home Scenario.no_prefetch
    (on_about Scenario.no_prefetch) /\
  opt_log (mergeOpts Scenario.no_prefetch) = true /\
  tally is_time (trace (EventLoop.world (on_about Scenario.no_prefetch)))
  = tally is_time_end (trace (EventLoop.world (on_about Scenario.no_prefetch))) +
    (if opt_log (mergeOpts Scenario.no_prefetch)
     then length (EventLoop.pending (on_about Scenario.no_prefetch)) else 0).
Proof.
  split; [apply on_about_reachable|].
  split; [reflexivity|].
  pose proof (timers_balanced Scenario.URL_href Scenario.home Scenario.no_prefetch
                (on_about Scenario.no_prefetch)
                (on_about_reachable Scenario.no_prefetch)) as [H _].
  exact H.
Defined.

(** X14.  One request per push.  In every state the router can reach, the
    requests sent so far are as many as the history entries pushed, and no
    more than the [router:fetch] notifications; on a host with a history
    they are as many as the notifications. *)
Theorem requests_follow_pushes URL_href (h : Host)
    (o : option FlamethrowerOptions) (s : EventLoop.System) :
  EventLoop.reachable URL_href h o s ->
  tally is_fetch (trace (EventLoop.world s))
  = tally is_push (trace (EventLoop.world s)) /\
  tally is_fetch (trace (EventLoop.world s))
  <= tally (is_dispatch_of "router:fetch") (trace (EventLoop.world s)) /\
  (has_history h = true ->
   tally is_fetch (trace (EventLoop.world s))
   = tally (is_dispatch_of "router:fetch") (trace (EventLoop.world s))).
Proof.
  intros Hr.
  destruct (reachable_books URL_href h o s Hr) as (_ & _ & _ & _ & _ & Hl).
  destruct Hl as (_ & _ & H1 & H2 & H3 & _). auto.
Qed.

Lemma requests_follow_pushes_witness :
  EventLoop.reachable Scenario.URL_href Scenario.home None (on_about None) /\
  has_history Scenario.home = true /\
  tally is_fetch (trace (EventLoop.world (on_about None))) = 1 /\
  tally is_fetch (trace (EventLoop.world (on_about None)))
  = tally is_push (trace (EventLoop.world (on_about None))).
Proof.
  split; [apply on_about_reachable|].
  split; [reflexivity|].
  split; [vm_compute; reflexivity|].
  pose proof (requests_follow_pushes Scenario.URL_href Scenario.home None
                (on_about None) (on_about_reachable None)) as [H _].
  exact H.
Defined.

(** X15.  What is fixed at construction stays fixed.  In every state the
    router can reach, the options are the merged options of the
    constructor, the listeners are those the constructor registered, and
    the origin and the capabilities of the host are those of the start.
    The router never writes its [enabled] flag: a step changes it only when
    the host assigns it. *)
Theorem setup_is_stable URL_href (h : Host) (o : option FlamethrowerOptions)
    (s : EventLoop.System) :
  EventLoop.reachable URL_href h o s ->
  opts (router (EventLoop.world s)) = mergeOpts o /\
  listeners (EventLoop.world s)
  = listeners (EventLoop.world (EventLoop.boot h o)) /\
  origin (host (EventLoop.world s)) = origin h /\
  has_history (host (EventLoop.world s)) = has_history h /\
  has_transitions (host (EventLoop.world s)) = has_transitions h /\
  (forall i s', EventLoop.step URL_href i s = Some s' ->
     is_set_enabled i = false ->
     enabled (router (EventLoop.world s'))
     = enabled (router (EventLoop.world s))).
Proof.
  intros Hr.
  destruct (reachable_books URL_href h o s Hr) as (H1 & H2 & H3 & H4 & H5 & _).
  repeat (split; [assumption|]).
  intros i s' Hstep Hi.
  destruct (step_ledger URL_href i s s' Hstep) as (es & _ & _ & _ & He).
  exact (He Hi).
Qed.

Lemma setup_is_stable_witness :
  EventLoop.reachable Scenario.URL_href Scenario.home Scenario.no_prefetch
    (on_about Scenario.no_prefetch) /\
  opts (router (EventLoop.world (on_about Scenario.no_prefetch)))
  = mergeOpts Scenario.no_prefetch /\
  listeners (EventLoop.world (on_about Scenario.no_prefetch))
  = listeners (EventLoop.world (EventLoop.boot Scenario.home Scenario.no_prefetch)).
Proof.
  split; [apply on_about_reachable|].
  pose proof (setup_is_stable Scenario.URL_href Scenario.home Scenario.no_prefetch
                (on_about Scenario.no_prefetch)
                (on_about_reachable Scenario.no_prefetch)) as (H1 & H2 & _).
  split; [exact H1 | exact H2].
Defined.

(** ** The prefetched set and the requests *)

Lemma skipn_length_app {A} (a b : list A) : skipn (length a) (a ++ b) = b.
Proof. rewrite skipn_app, skipn_all, Nat.sub_diag. reflexivity. Qed.

Lemma quiet_records (w w' : World) :
  set_records_requests w -> quiet w w' -> set_records_requests w'.
Proof.
  unfold set_records_requests.
  intros J (_ & Hp & _ & es & Ht & Hf) v. rewrite Ht, Hp, in_app_iff, J.
  split; [|auto]. intros [H | H]; [exact H|].
  apply (filter_nil_In is_append _ _ Hf) in H. discriminate.
Qed.

Lemma pass_records (tail : list Effect) (w : World) :
  filter is_append tail = [] ->
  set_records_requests w ->
  set_records_requests (with_trace tail (after_requests (requested w) w)).
Proof.
  unfold set_records_requests.
  intros Hf J v. cbn [with_trace after_requests trace router prefetched].
  rewrite !in_app_iff, fold_set_add_In, J. split.
  - intros [[H | H] | H]; [left; exact H | right |].
    + apply in_map_iff in H. destruct H as [u [E Hu]].
      apply request_inj in E. subst. exact Hu.
    + apply (filter_nil_In is_append _ _ Hf) in H. discriminate.
  - intros [H | H]; [left; left; exact H | left; right; apply in_map, H].
Qed.

Lemma reachable_records URL_href (h : Host) (o : option FlamethrowerOptions)
    (s : EventLoop.System) :
  EventLoop.reachable URL_href h o s ->
  set_records_requests (EventLoop.world s).
Proof.
  induction 1 as [|s i s' _ IH Hstep].
  - assert (J : set_records_requests (installed o (EventLoop.fresh h))).
    { intros v. destruct (installed_router h o) as (Hrt & _ & Hf).
      rewrite Hrt. simpl. split; [|intros []].
      intros H. apply (filter_nil_In is_append _ _ Hf) in H. discriminate. }
    rewrite boot_world.
    destruct (construction_requests_cases o (EventLoop.fresh h)) as [-> | ->].
    + rewrite <- with_trace_nil. apply pass_records; [reflexivity | exact J].
    + rewrite after_requests_nil. exact J.
  - destruct (step_quiet_or_passed URL_href i s s' Hstep)
      as [Hq | (w1 & tail & Hq & -> & Hf)].
    + eapply quiet_records; [exact IH | exact Hq].
    + apply pass_records; [exact Hf|].
      eapply quiet_records; [exact IH | exact Hq].
Qed.

(** X16.  The prefetched set is the record of the requests.  In every
    state the router can reach, a URL is in the set exactly when a prefetch
    link for it was appended to the head at some point; and a step never
    requests a URL that was requested before the step, so no URL is
    requested by two passes. *)
Theorem prefetched_is_requested URL_href (h : Host)
    (o : option FlamethrowerOptions) (s : EventLoop.System) :
  EventLoop.reachable URL_href h o s ->
  (forall v, In v (prefetched (router (EventLoop.world s))) <->
             In (request v) (trace (EventLoop.world s))) /\
  (forall i s' v,
     EventLoop.step URL_href i s = Some s' ->
     In (request v) (skipn (length (trace (EventLoop.world s)))
                           (trace (EventLoop.world s'))) ->
     ~ In (request v) (trace (EventLoop.world s))).
Proof.
  intros Hr. pose proof (reachable_records URL_href h o s Hr) as J.
  unfold set_records_requests in J.
  split; [intros v; symmetry; apply J|].
  intros i s' v Hstep Hnew Hold. apply J in Hold.
  destruct (step_quiet_or_passed URL_href i s s' Hstep)
    as [(_ & _ & _ & es & Ht & Hf) | (w1 & tail & Hq & E & Hf)].
  - rewrite Ht, skipn_length_app in Hnew.
    apply (filter_nil_In is_append _ _ Hf) in Hnew. discriminate.
  - destruct Hq as (_ & Hp & _ & es & Ht & Hes).
    rewrite E in Hnew. cbn [with_trace after_requests trace] in Hnew.
    rewrite Ht, <- !app_assoc, skipn_length_app, !in_app_iff in Hnew.
    destruct Hnew as [H | [H | H]].
    + apply (filter_nil_In is_append _ _ Hes) in H. discriminate.
    + apply in_map_iff in H. destruct H as [u [Eu Hu]].
      apply request_inj in Eu. subst u.
      apply requested_iff in Hu. destruct Hu as (_ & _ & Hk).
      apply keep_iff in Hk. rewrite Hp in Hk. tauto.
    + apply (filter_nil_In is_append _ _ Hf) in H. discriminate.
Qed.

Lemma prefetched_is_requested_witness :
  EventLoop.reachable Scenario.URL_href Scenario.home None (on_about None) /\
  (forall v, In v (prefetched (router (EventLoop.world (on_about None)))) <->
             In (request v) (trace (EventLoop.world (on_about None)))).
Proof.
  split; [apply on_about_reachable|].
  pose proof (prefetched_is_requested Scenario.URL_href Scenario.home None
                (on_about None) (on_about_reachable None)) as [H _].
  exact H.
Defined.

(** ** The constructor where no window is declared *)

(** X17.  [window?.history] does not guard against a [window] that is not
    declared: on such a host the constructor throws a [ReferenceError]
    before it warns, registers a listener or prefetches, so nothing is
    written on the console, nothing is appended to the head and the host is
    as it was. *)
Theorem constructor_without_window (h : Host) (o : option FlamethrowerOptions) :
  window h = Undeclared ->
  fst (Router.new o (EventLoop.fresh h))
  = Throw (ReferenceError "window is not defined") /\
  trace (snd (Router.new o (EventLoop.fresh h))) = [] /\
  listeners (snd (Router.new o (EventLoop.fresh h))) = [] /\
  prefetched (router (snd (Router.new o (EventLoop.fresh h)))) = [] /\
  host (snd (Router.new o (EventLoop.fresh h))) = h.
Proof.
  intros Hw. rewrite new_run.
  unfold construction_requests, installed. cbn [EventLoop.fresh host fst snd].
  rewrite Hw, after_requests_nil. repeat split.
Qed.

Lemma constructor_without_window_witness :
  window Scenario.home_no_window = Undeclared /\
  fst (Router.new None (EventLoop.fresh Scenario.home_no_window))
  = Throw (ReferenceError "window is not defined") /\
  trace (snd (Router.new None (EventLoop.fresh Scenario.home_no_window))) = [].
Proof.
  split; [reflexivity|].
  pose proof (constructor_without_window Scenario.home_no_window None eq_refl)
    as (H1 & H2 & _).
  split; [exact H1 | exact H2].
Defined.
